(** * touchp: timestamp resolution and file touching

    A shallow embedding of [touchp.py] (functions [update_timestamps] and
    [main]) together with the properties of its timestamp resolver and
    file toucher.

    Modelling conventions.
    - A timestamp (a Python float of seconds since the epoch) is an
      integer number of clock ticks since the epoch; only equality and
      the test against zero matter to the program.
    - Python [str] values are [string]; the character-level work of the
      [-t] parser is done on [list ascii].
    - The file system is a finite map from path to file; the clock, the
      date library, the operating system's refusals and the Qt event loop
      are collected in an environment record [Env].
    - Effects are explicit: every operation takes and returns a [World]
      (files, number of clock readings so far, both output streams).
    - Exceptions are values of [Exn]; [sys.exit] and uncaught exceptions
      are outcomes of [main].

    Outside the model:
    - what the system does with a time it is given: a file's time in
      the model is the value [os.utime] was called with, as [os.stat]
      would report it if floats were stored exactly; rounding to the
      file system's resolution, clamping of far times and the
      [OverflowError] of [os.utime] for times beyond the platform's
      range are not modelled;
    - directories: creating a file also changes the modify time of the
      directory it is in;
    - permissions finer than one refusal per path ([os.utime] with the
      current time needs less than with explicit times);
    - two paths naming one file (links, relative spellings);
    - characters beyond code point 255;
    - what the dialog does to the files once it is open; the world
      returned by [main] is the one the dialog starts from. *)

From Stdlib Require Import ZArith List Ascii String Bool Lia.
From stdpp Require Import base option gmap strings list fin_maps.
Import ListNotations.

Local Open Scope Z_scope.

(** ** Python values *)

Definition Timestamp := Z.

Inductive Exn :=
| ValueError (msg : string)
| IndexError (msg : string)
| OverflowError (msg : string)
| OSError (msg : string).

Definition exn_text (e : Exn) : string :=
  match e with
  | ValueError s | IndexError s | OverflowError s | OSError s => s
  end.

Inductive Result (A : Type) :=
| Ok (a : A)
| Raise (e : Exn).
Arguments Ok {A} a.
Arguments Raise {A} e.

Definition rbind {A B} (r : Result A) (k : A → Result B) : Result B :=
  match r with
  | Ok a => k a
  | Raise e => Raise e
  end.

#[global] Instance Result_bind : MBind Result := fun A B k r => rbind r k.

(** Truth value of [None]-or-[str] (an [argparse] option that was not
    given is [None]; the empty string is false as well). *)
Definition truthy_str (o : option string) : bool :=
  match o with
  | Some s => negb (String.eqb s "")
  | None => false
  end.

(** Truth value of [None]-or-float: [None] and [0.0] are false. *)
Definition truthy_ts (o : option Timestamp) : bool :=
  match o with
  | Some t => negb (t =? 0)
  | None => false
  end.

(** ** Strings: [in], [split], slices and [int] *)

Definition chars (s : string) : list ascii := list_ascii_of_string s.

Definition is_digit (c : ascii) : bool :=
  let n := nat_of_ascii c in (48 <=? n)%nat && (n <=? 57)%nat.

Definition digit_val (c : ascii) : Z := Z.of_nat (nat_of_ascii c) - 48.

(** White space for [int] on a string: the ASCII blanks, and the two
    blanks of Latin-1 (U+0085, U+00A0), which the conversion turns into
    a space. The separators U+001C..U+001F are not white space here. *)
Definition is_space (c : ascii) : bool :=
  let n := nat_of_ascii c in
  ((9 <=? n)%nat && (n <=? 13)%nat) || (n =? 32)%nat
  || (n =? 133)%nat || (n =? 160)%nat.

Definition is_char (k : nat) (c : ascii) : bool := (nat_of_ascii c =? k)%nat.

(** ['.' in t_str] *)
Definition contains (k : nat) (l : list ascii) : bool := existsb (is_char k) l.

(** [t_str.split('.')]: the pieces between the separators. *)
Fixpoint split_on (k : nat) (l : list ascii) : list (list ascii) :=
  match l with
  | [] => [[]]
  | c :: r =>
      if is_char k c then [] :: split_on k r
      else match split_on k r with
           | p :: ps => (c :: p) :: ps
           | [] => [[c]]
           end
  end.

(** [s[i:j]] for [0 <= i <= j]; a slice never raises. *)
Definition slice (i j : nat) (l : list ascii) : list ascii :=
  firstn (j - i) (skipn i l).

Fixpoint lstrip (l : list ascii) : list ascii :=
  match l with
  | c :: r => if is_space c then lstrip r else l
  | [] => []
  end.

Definition strip (l : list ascii) : list ascii := rev (lstrip (rev (lstrip l))).

(** [str(n)] for an integer. *)
Fixpoint str_digits (fuel : nat) (n : Z) (acc : list ascii) : list ascii :=
  match fuel with
  | O => acc
  | S fuel' =>
      let acc' := ascii_of_nat (Z.to_nat (48 + n mod 10)) :: acc in
      if n / 10 =? 0 then acc' else str_digits fuel' (n / 10) acc'
  end.

Definition py_str (n : Z) : list ascii :=
  if n <? 0 then
    ascii_of_nat 45 :: str_digits (S (Z.to_nat (Z.log2 (- n)))) (- n) []
  else str_digits (S (Z.to_nat (Z.log2 n))) n [].

(** [repr(s)] of a string of code points below 256: the quote is the
    apostrophe unless the string has an apostrophe and no double quote;
    the backslash, the quote and the characters that are not printable
    are escaped. *)
Definition hex_digit (n : nat) : ascii :=
  ascii_of_nat (if (n <? 10)%nat then 48 + n else 87 + n).

Definition repr_char (quote : nat) (c : ascii) : list ascii :=
  let n := nat_of_ascii c in
  let backslash := ascii_of_nat 92 in
  if (n =? 92)%nat || (n =? quote)%nat then [backslash; c]
  else if (n =? 9)%nat then [backslash; ascii_of_nat 116]
  else if (n =? 10)%nat then [backslash; ascii_of_nat 110]
  else if (n =? 13)%nat then [backslash; ascii_of_nat 114]
  else if (n <? 32)%nat || (n =? 127)%nat
          || ((128 <=? n)%nat && (n <=? 160)%nat) || (n =? 173)%nat
  then [backslash; ascii_of_nat 120; hex_digit (n / 16); hex_digit (n mod 16)]
  else [c].

Definition py_repr (l : list ascii) : list ascii :=
  let quote := if contains 39 l && negb (contains 34 l) then 34%nat
               else 39%nat in
  ascii_of_nat quote :: flat_map (repr_char quote) l ++ [ascii_of_nat quote].

(** The run of digits of a decimal literal, single underscores allowed
    between digits: its value, its number of digits and what follows it.
    [after_underscore] tells whether the previous character was an
    underscore. *)
Fixpoint scan_digits (acc : Z) (count : nat) (after_underscore : bool)
    (l : list ascii) : option (Z * nat * list ascii) :=
  match l with
  | [] => if after_underscore then None else Some (acc, count, [])
  | c :: r =>
      if is_digit c then
        scan_digits (10 * acc + digit_val c) (S count) false r
      else if is_char 95 c then
        if after_underscore then None else scan_digits acc count true r
      else if after_underscore then None
      else Some (acc, count, l)
  end.

(** The default of [sys.get_int_max_str_digits()]. *)
Definition max_str_digits : nat := 4300.

(** [int(s)] on a string (CPython 3.11 and later): surrounding white
    space, an optional sign, decimal digits. A literal of more than
    [max_str_digits] digits is refused before what follows the digits
    is looked at. The text of the usual error quotes at most 200
    characters of [repr(s)]. *)
Definition py_int (l : list ascii) : Result Z :=
  let invalid :=
    Raise (ValueError ("invalid literal for int() with base 10: "
                         +:+ string_of_list_ascii (firstn 200 (py_repr l)))) in
  let body := strip l in
  let '(negative, unsigned) :=
    match body with
    | c :: r =>
        if is_char 43 c then (false, r)
        else if is_char 45 c then (true, r)
        else (false, body)
    | [] => (false, [])
    end in
  match unsigned with
  | [] => invalid
  | c :: _ =>
      if is_char 95 c then invalid
      else
        match scan_digits 0 0 false unsigned with
        | None => invalid
        | Some (v, count, rest) =>
            if (max_str_digits <? count)%nat then
              Raise (ValueError
                ("Exceeds the limit (4300 digits) for integer string "
                 +:+ "conversion: value has "
                 +:+ string_of_list_ascii (py_str (Z.of_nat count))
                 +:+ " digits; use sys.set_int_max_str_digits() "
                 +:+ "to increase the limit"))
            else
              match count, rest with
              | S _, [] => Ok (if negative then - v else v)
              | _, _ => invalid
              end
        end
  end.

(** ** [datetime.datetime] *)

Record DateTime := mkDateTime {
  year : Z; month : Z; day : Z;
  hour : Z; minute : Z; second : Z;
  microsecond : Z;
  tzoffset : option Z
}.

Definition is_leap (y : Z) : bool :=
  (y mod 4 =? 0) && (negb (y mod 100 =? 0) || (y mod 400 =? 0)).

Definition days_in_month (y mo : Z) : Z :=
  if mo =? 2 then (if is_leap y then 29 else 28)
  else if (mo =? 4) || (mo =? 6) || (mo =? 9) || (mo =? 11) then 30
  else 31.

(** An argument that does not fit a C [int] makes the constructor raise
    [OverflowError] before any range is checked (64-bit [long]). *)
Definition c_int_error (v : Z) : option string :=
  if (v <? - 9223372036854775808) || (9223372036854775807 <? v) then
    Some "Python int too large to convert to C long"
  else if 2147483647 <? v then Some "signed integer is greater than maximum"
  else if v <? - 2147483648 then Some "signed integer is less than minimum"
  else None.

Fixpoint first_c_int_error (l : list Z) : option string :=
  match l with
  | [] => None
  | v :: rest =>
      match c_int_error v with
      | Some msg => Some msg
      | None => first_c_int_error rest
      end
  end.

(** [datetime.datetime(yy, mm, dd, hh, min, ss)]: the arguments are
    converted to C [int] first; then the fields are checked in this
    order and the first one out of range raises [ValueError] (texts of
    CPython up to 3.12). *)
Definition datetime_new (y mo d h mi s : Z) : Result DateTime :=
  match first_c_int_error [y; mo; d; h; mi; s] with
  | Some msg => Raise (OverflowError msg)
  | None =>
      if negb ((1 <=? y) && (y <=? 9999)) then
        Raise (ValueError ("year " +:+ string_of_list_ascii (py_str y)
                             +:+ " is out of range"))
      else if negb ((1 <=? mo) && (mo <=? 12)) then
        Raise (ValueError "month must be in 1..12")
      else if negb ((1 <=? d) && (d <=? days_in_month y mo)) then
        Raise (ValueError "day is out of range for month")
      else if negb ((0 <=? h) && (h <=? 23)) then
        Raise (ValueError "hour must be in 0..23")
      else if negb ((0 <=? mi) && (mi <=? 59)) then
        Raise (ValueError "minute must be in 0..59")
      else if negb ((0 <=? s) && (s <=? 59)) then
        Raise (ValueError "second must be in 0..59")
      else Ok (mkDateTime y mo d h mi s 0 None)
  end.

(** ** The [-t] parser (the body of the [try] in [main]) *)

(** [ss] is either the text after the dot or [now.second]. *)
Definition int_ss (ss : list ascii + Z) : Result Z :=
  match ss with
  | inl txt => py_int txt
  | inr n => Ok n
  end.

Definition parse_t (now : DateTime) (t : list ascii) : Result DateTime :=
  '(t_str, ss) ←
    (if contains 46 t then
       match split_on 46 t with
       | [t_str; ss] => Ok (t_str, inl ss)
       | [] | [_] =>
           Raise (ValueError "not enough values to unpack (expected 2, got 1)")
       | _ => Raise (ValueError "too many values to unpack (expected 2)")
       end
     else Ok (t, inr (second now)));
  '(yy, mm, dd, hh, mi) ←
    (if (length t_str =? 8)%nat then
       mm ← py_int (slice 0 2 t_str);
       dd ← py_int (slice 2 4 t_str);
       hh ← py_int (slice 4 6 t_str);
       mi ← py_int (slice 6 8 t_str);
       Ok (year now, mm, dd, hh, mi)
     else if (length t_str =? 10)%nat then
       yy ← py_int (firstn 2 (py_str (year now)) ++ slice 0 2 t_str);
       mm ← py_int (slice 2 4 t_str);
       dd ← py_int (slice 4 6 t_str);
       hh ← py_int (slice 6 8 t_str);
       mi ← py_int (slice 8 10 t_str);
       Ok (yy, mm, dd, hh, mi)
     else if (length t_str =? 12)%nat then
       yy ← py_int (slice 0 4 t_str);
       mm ← py_int (slice 4 6 t_str);
       dd ← py_int (slice 6 8 t_str);
       hh ← py_int (slice 8 10 t_str);
       mi ← py_int (slice 10 12 t_str);
       Ok (yy, mm, dd, hh, mi)
     else Raise (ValueError "Invalid format length"));
  s ← int_ss ss;
  datetime_new yy mm dd hh mi s.

(** ** Files, the world and the environment *)

Record File := mkFile {
  content : string;
  st_atime : Timestamp;
  st_mtime : Timestamp
}.

Record World := mkWorld {
  fs : gmap string File;
  clock : nat;
  stdout : list string;
  stderr : list string
}.

Record Env := mkEnv {
  (** the [n]-th reading of the system clock, as [datetime.datetime.now()]
      and as [datetime.datetime.now().timestamp()] *)
  now_datetime : nat → DateTime;
  now_timestamp : nat → Timestamp;
  (** [dt_obj.timestamp()] in the local time zone *)
  timestamp : DateTime → Result Timestamp;
  (** [dateutil.parser.parse] as it answers during this run: it fills
      the fields a string leaves out from the current date, so another
      run is another environment *)
  parse_date : string → Result DateTime;
  (** the error text when the system refuses to create, or to set the
      times of, a path *)
  open_error : string → option string;
  utime_error : string → option string;
  (** the value [app.exec_()] returns for the dialog on these files *)
  gui_exec : list string → Z
}.

Definition print_out (line : string) (w : World) : World :=
  mkWorld (fs w) (clock w) (stdout w ++ [line]) (stderr w).

Definition print_err (line : string) (w : World) : World :=
  mkWorld (fs w) (clock w) (stdout w) (stderr w ++ [line]).

Definition tick (w : World) : World :=
  mkWorld (fs w) (S (clock w)) (stdout w) (stderr w).

(** [datetime.datetime.now().timestamp()] *)
Definition read_now (E : Env) (w : World) : Timestamp * World :=
  (now_timestamp E (clock w), tick w).

Definition os_path_exists (w : World) (path : string) : bool :=
  bool_decide (is_Some (fs w !! path)).

Definition os_stat (w : World) (path : string) : Result File :=
  match fs w !! path with
  | Some f => Ok f
  | None => Raise (OSError "No such file or directory")
  end.

(** [with open(filepath, 'a'): pass] on a missing path: an empty file
    stamped with the current time, or [IOError]. *)
Definition open_append (E : Env) (path : string) (w : World) : Result World :=
  match open_error E path with
  | Some msg => Raise (OSError msg)
  | None =>
      match fs w !! path with
      | Some _ => Ok w
      | None =>
          let t := now_timestamp E (clock w) in
          Ok (mkWorld (<[path := mkFile "" t t]> (fs w)) (S (clock w))
                (stdout w) (stderr w))
      end
  end.

(** [os.utime(filepath, times)]; [times = None] means the current time.
    The times are taken to be within what the platform and the file
    system can hold, and are stored as given. *)
Definition os_utime (E : Env) (path : string)
    (times : option (Timestamp * Timestamp)) (w : World) : Result World :=
  match utime_error E path with
  | Some msg => Raise (OSError msg)
  | None =>
      match fs w !! path with
      | None => Raise (OSError "No such file or directory")
      | Some f =>
          match times with
          | Some (a, m) =>
              Ok (mkWorld (<[path := mkFile (content f) a m]> (fs w)) (clock w)
                    (stdout w) (stderr w))
          | None =>
              let t := now_timestamp E (clock w) in
              Ok (mkWorld (<[path := mkFile (content f) t t]> (fs w))
                    (S (clock w)) (stdout w) (stderr w))
          end
      end
  end.

(** ** [update_timestamps] *)

(** The two conditional expressions that fill a missing slot. *)
Definition final_atime (atime mtime : option Timestamp) (current_atime : Timestamp)
    : Timestamp :=
  match atime with
  | Some a => a
  | None => match mtime with Some m => m | None => current_atime end
  end.

Definition final_mtime (atime mtime : option Timestamp) (current_mtime : Timestamp)
    : Timestamp :=
  match mtime with
  | Some m => m
  | None => match atime with Some a => a | None => current_mtime end
  end.

(** Lines 56-77: the file exists by now. Only [OSError] of [os.utime] is
    caught; an exception of [os.stat] is not. *)
Definition set_times (E : Env) (filepath : string)
    (mtime atime : option Timestamp) (w : World) : Result bool * World :=
  let times :=
    match mtime, atime with
    | None, None => Ok None
    | _, _ =>
        stat ← os_stat w filepath;
        let current_atime := st_atime stat in
        let current_mtime := st_mtime stat in
        Ok (Some (final_atime atime mtime current_atime,
                  final_mtime atime mtime current_mtime))
    end in
  match times with
  | Raise e => (Raise e, w)
  | Ok times =>
      match os_utime E filepath times w with
      | Raise (OSError msg) =>
          (Ok false,
           print_err ("touchp: setting times for '" +:+ filepath +:+ "': "
                        +:+ msg) w)
      | Raise e => (Raise e, w)
      | Ok w' => (Ok true, w')
      end
  end.

Definition update_timestamps (E : Env) (filepath : string)
    (mtime atime : option Timestamp) (no_create : bool) (w : World)
    : Result bool * World :=
  if negb (os_path_exists w filepath) then
    if no_create then
      (Ok false,
       print_out ("touchp: cannot touch '" +:+ filepath
                    +:+ "': No such file or directory (and -c flag is set)") w)
    else
      match open_append E filepath w with
      | Raise (OSError msg) =>
          (Ok false,
           print_err ("touchp: cannot create '" +:+ filepath +:+ "': "
                        +:+ msg) w)
      | Raise e => (Raise e, w)
      | Ok w1 =>
          set_times E filepath mtime atime
            (print_out ("touchp: created '" +:+ filepath +:+ "'") w1)
      end
  else set_times E filepath mtime atime w.

(** ** [main] *)

Record Args := mkArgs {
  file : list string;
  flag_a : bool;
  flag_m : bool;
  no_create : bool;
  date : option string;
  reference : option string;
  t_spec : option string
}.

(** How [main] ends: [sys.exit(code)], an exception nobody caught, or the
    dialog opened on the successfully touched files. *)
Inductive Outcome :=
| Exited (code : Z)
| Uncaught (e : Exn)
| LaunchGUI (successful_files : list string).

(** The process exit status: an uncaught exception ends the interpreter
    with status 1; after the dialog it is [sys.exit(app.exec_())]. *)
Definition exit_code (E : Env) (o : Outcome) : Z :=
  match o with
  | Exited c => c
  | Uncaught _ => 1
  | LaunchGUI files => gui_exec E files
  end.

(** The interpreter reports an uncaught exception on the error stream. *)
Definition at_exit (o : Outcome) (w : World) : World :=
  match o with
  | Uncaught e =>
      print_err ("Traceback (most recent call last): " +:+ exn_text e) w
  | _ => w
  end.

(** [if args.x:] binds the value only when it is a non-empty string. *)
Definition given (o : option string) : option string :=
  match o with
  | Some s => if truthy_str (Some s) then Some s else None
  | None => None
  end.

(** Lines 179-225: the pair ([atime_change], [mtime_change]), or the way
    the program ends. *)
Definition resolve_source (E : Env) (args : Args) (w : World)
    : (Outcome + option Timestamp * option Timestamp) * World :=
  match given (reference args) with
  | Some ref =>
      if negb (os_path_exists w ref) then
        (inl (Exited 1),
         print_err ("touchp: failed to get attributes of '" +:+ ref
                      +:+ "': No such file or directory") w)
      else
        match os_stat w ref with
        | Ok ref_stat =>
            (inr (Some (st_atime ref_stat), Some (st_mtime ref_stat)), w)
        | Raise e => (inl (Uncaught e), w)
        end
  | None =>
  match given (date args) with
  | Some d =>
      match (dt_obj ← parse_date E d; timestamp E dt_obj) with
      | Ok ts => (inr (Some ts, Some ts), w)
      | Raise (ValueError _) | Raise (OverflowError _) =>
          (inl (Exited 1),
           print_err ("touchp: invalid date format '" +:+ d +:+ "'") w)
      | Raise e => (inl (Uncaught e), w)
      end
  | None =>
  match given (t_spec args) with
  | Some t =>
      let now := now_datetime E (clock w) in
      let w1 := tick w in
      match (dt_obj ← parse_t now (chars t); timestamp E dt_obj) with
      | Ok ts => (inr (Some ts, Some ts), w1)
      | Raise (ValueError msg) | Raise (IndexError msg) =>
          (inl (Exited 1),
           print_err ("touchp: invalid date format '" +:+ t +:+ "' ("
                        +:+ msg +:+ ")") w1)
      | Raise e => (inl (Uncaught e), w1)
      end
  | None => (inr (None, None), w)
  end end end.

(** [x or datetime.datetime.now().timestamp()] *)
Definition or_now (E : Env) (x : option Timestamp) (w : World)
    : Timestamp * World :=
  match x with
  | Some v => if truthy_ts x then (v, w) else read_now E w
  | None => read_now E w
  end.

(** Lines 227-235: the pair ([atime_final], [mtime_final]). *)
Definition select_times (E : Env) (args : Args)
    (atime_change mtime_change : option Timestamp) (w : World)
    : (option Timestamp * option Timestamp) * World :=
  if flag_a args && negb (flag_m args) then
    let '(x, w1) := or_now E atime_change w in ((Some x, None), w1)
  else if flag_m args && negb (flag_a args) then
    let '(y, w1) := or_now E mtime_change w in ((None, Some y), w1)
  else
    let '(x, w1) := or_now E atime_change w in
    let '(y, w2) := or_now E mtime_change w1 in
    ((Some x, Some y), w2).

(** Lines 237-241: the loop over [args.file]; the result lists the paths
    for which [update_timestamps] returned [True], in order. *)
Fixpoint touch_all (E : Env) (files : list string)
    (mtime atime : option Timestamp) (nc : bool) (w : World)
    : Result (list string) * World :=
  match files with
  | [] => (Ok [], w)
  | f :: rest =>
      match update_timestamps E f mtime atime nc w with
      | (Raise e, w1) => (Raise e, w1)
      | (Ok touched, w1) =>
          match touch_all E rest mtime atime nc w1 with
          | (Raise e, w2) => (Raise e, w2)
          | (Ok successful, w2) =>
              (Ok (if touched then f :: successful else successful), w2)
          end
      end
  end.

(** Lines 227-258, once the time source has been resolved. *)
Definition touch_phase (E : Env) (args : Args)
    (atime_change mtime_change : option Timestamp) (w : World)
    : Outcome * World :=
  let '((atime_final, mtime_final), w1) :=
    select_times E args atime_change mtime_change w in
  match touch_all E (file args) mtime_final atime_final (no_create args) w1 with
  | (Raise e, w2) => (Uncaught e, w2)
  | (Ok [], w2) =>
      (Exited 1,
       print_out "touchp: No files were created or updated. Exiting." w2)
  | (Ok successful_files, w2) => (LaunchGUI successful_files, w2)
  end.

Definition main (E : Env) (args : Args) (w : World) : Outcome * World :=
  match resolve_source E args w with
  | (inl o, w1) => (o, at_exit o w1)
  | (inr (atime_change, mtime_change), w1) =>
      let '(o, w2) := touch_phase E args atime_change mtime_change w1 in
      (o, at_exit o w2)
  end.

(** ** The paste dialog: [PasteDialog.save_content] *)

Definition slash : nat := 47.

(** [os.path.basename] on a POSIX path: what follows the last slash. *)
Fixpoint basename_chars (l : list ascii) : list ascii :=
  match l with
  | [] => []
  | c :: r =>
      if contains slash r then basename_chars r
      else if is_char slash c then r
      else l
  end.

Definition basename (p : string) : string :=
  string_of_list_ascii (basename_chars (chars p)).

Definition newline : string := String (ascii_of_nat 10) EmptyString.

Inductive Icon := Information | Critical.

Record MessageBox := mkMessageBox {
  icon : Icon;
  text : string;
  detailed_text : string;
  window_title : string
}.

(** [with open(fpath, 'w', encoding='utf-8') as f: f.write(content)]: the
    file is created or replaced and its modify time becomes the current
    time, or the system refuses with [IOError]. [write_error] gives the
    error text for the paths the system refuses to open for writing. *)
Definition open_write (E : Env) (write_error : string → option string)
    (path content_to_save : string) (w : World) : Result World :=
  match write_error path with
  | Some msg => Raise (OSError msg)
  | None =>
      let t := now_timestamp E (clock w) in
      let a := match fs w !! path with
               | Some f => st_atime f
               | None => t
               end in
      Ok (mkWorld (<[path := mkFile content_to_save a t]> (fs w))
            (S (clock w)) (stdout w) (stderr w))
  end.

(** Lines 132-138: the loop of [save_content]; the result is the pair
    ([saved_files], [errors]). *)
Fixpoint save_loop (E : Env) (write_error : string → option string)
    (filepaths : list string) (content_to_save : string) (w : World)
    : (list string * list string) * World :=
  match filepaths with
  | [] => (([], []), w)
  | fpath :: rest =>
      match open_write E write_error fpath content_to_save w with
      | Ok w1 =>
          let '((saved_files, errors), w2) :=
            save_loop E write_error rest content_to_save w1 in
          ((basename fpath :: saved_files, errors), w2)
      | Raise e =>
          let '((saved_files, errors), w2) :=
            save_loop E write_error rest content_to_save w in
          ((saved_files,
            ("Could not save to " +:+ fpath +:+ ": " +:+ exn_text e)
              :: errors), w2)
      end
  end.

(** Lines 124-153: the message box shown after the loop. *)
Definition save_content (E : Env) (write_error : string → option string)
    (filepaths : list string) (content_to_save : string) (w : World)
    : MessageBox * World :=
  let '((saved_files, errors), w') :=
    save_loop E write_error filepaths content_to_save w in
  let '(ic, tx) :=
    match saved_files with
    | [] => (Critical, "No files were saved.")
    | _ => (Information,
            "Content successfully saved to:" +:+ newline
              +:+ String.concat newline saved_files)
    end in
  (mkMessageBox ic tx
     (match errors with
      | [] => ""
      | _ => String.concat newline errors
      end)
     "Save Status", w').

(** ** Vocabulary of the statements *)

(** The pair of times [update_timestamps] hands to [os.utime] when at
    least one of its two optional times is given. *)
Definition written_atime (atime mtime : option Timestamp) : Timestamp :=
  final_atime atime mtime 0.
Definition written_mtime (atime mtime : option Timestamp) : Timestamp :=
  final_mtime atime mtime 0.

Definition set_fs (files : gmap string File) (w : World) : World :=
  mkWorld files (clock w) (stdout w) (stderr w).

Definition msg_set_times (p msg : string) : string :=
  "touchp: setting times for '" +:+ p +:+ "': " +:+ msg.
Definition msg_no_create (p : string) : string :=
  "touchp: cannot touch '" +:+ p
    +:+ "': No such file or directory (and -c flag is set)".
Definition msg_cannot_create (p msg : string) : string :=
  "touchp: cannot create '" +:+ p +:+ "': " +:+ msg.
Definition msg_created (p : string) : string :=
  "touchp: created '" +:+ p +:+ "'".



(** The pair ([atime_final], [mtime_final]) with which [main] runs its
    loop over the targets; [None] when [main] ends before the loop. *)
Definition loop_times (E : Env) (args : Args) (w : World)
    : option (option Timestamp * option Timestamp) :=
  match resolve_source E args w with
  | (inl _, _) => None
  | (inr (atime_change, mtime_change), w1) =>
      Some (select_times E args atime_change mtime_change w1).1
  end.

(** Whether touching [p] succeeds in world [w]: the file is there or may
    be created, and the system lets its times be set. *)
Definition would_succeed (E : Env) (nc : bool) (w : World) (p : string) : bool :=
  (bool_decide (is_Some (fs w !! p))
   || (negb nc && bool_decide (open_error E p = None)))
  && bool_decide (utime_error E p = None).

(** The file at [p] carries access time [A] and modify time [M]. *)
Definition stamped (w : World) (p : string) (A M : Timestamp) : Prop :=
  ∃ f, fs w !! p = Some f ∧ st_atime f = A ∧ st_mtime f = M.

(** How [main] ends once the loop has produced its list. *)
Definition batch_outcome (successful : list string) : Outcome :=
  match successful with
  | [] => Exited 1
  | _ => LaunchGUI successful
  end.

(** The chain of the specification: the first value that is present,
    and the current time when none is. *)
Fixpoint first_present (chain : list (option Timestamp)) (now : Timestamp)
    : Timestamp :=
  match chain with
  | [] => now
  | Some v :: _ => v
  | None :: rest => first_present rest now
  end.

Definition fallback_chain (explicit sibling : option Timestamp)
    (existing now : Timestamp) : Timestamp :=
  first_present [explicit; sibling; Some existing] now.

(** What [os.stat] reports inside [update_timestamps]: the file as it is,
    or the empty file the call has just created. *)
Definition stat_at_apply (E : Env) (w : World) (p : string) : File :=
  match fs w !! p with
  | Some f => f
  | None => let t := now_timestamp E (clock w) in mkFile "" t t
  end.

(** The value of a string of decimal digits, read left to right. *)
Definition dec (l : list ascii) : Z :=
  fold_left (λ acc c, 10 * acc + digit_val c) l 0.

(** [l] consists of exactly [n] decimal digits. *)
Definition digits (n : nat) (l : list ascii) : Prop :=
  length l = n ∧ forallb is_digit l = true.

(** The fields name a date of the calendar and a time of the day. *)
Definition valid_datetime (y mo d h mi s : Z) : Prop :=
  1 ≤ y ≤ 9999 ∧ 1 ≤ mo ≤ 12 ∧ 1 ≤ d ≤ days_in_month y mo
  ∧ 0 ≤ h ≤ 23 ∧ 0 ≤ mi ≤ 59 ∧ 0 ≤ s ≤ 59.

(** The optional [.ss] of a [-t] spec: its text and the seconds it
    stands for. *)
Definition sec_suffix (sec : option (list ascii)) : list ascii :=
  match sec with
  | Some ss => ascii_of_nat 46 :: ss
  | None => []
  end.

Definition seconds_value (now : DateTime) (sec : option (list ascii)) : Z :=
  match sec with
  | Some ss => dec ss
  | None => second now
  end.

(** The [-t] spec [t] is parsed to the date and time [dt], and [dt] is
    what both base timestamps are computed from. *)
Definition t_resolves_to (E : Env) (w : World) (t : list ascii) (dt : DateTime)
    : Prop :=
  parse_t (now_datetime E (clock w)) t = Ok dt
  ∧ ∀ args ts,
      given (reference args) = None →
      given (date args) = None →
      t_spec args = Some (string_of_list_ascii t) →
      timestamp E dt = Ok ts →
      resolve_source E args w = (inr (Some ts, Some ts), tick w).

(** The first two characters of [str(y)] are the digits of [y / 100]. *)
Definition century_check (y : Z) : bool :=
  match firstn 2 (py_str y) with
  | [c1; c2] =>
      is_digit c1 && is_digit c2
      && (10 * digit_val c1 + digit_val c2 =? y / 100)
  | _ => false
  end.

(** A computation that can only fail with an exception of a given kind. *)
Definition raises_only {A} (P : Exn → Prop) (r : Result A) : Prop :=
  ∀ e, r = Raise e → P e.

Definition is_value_error (e : Exn) : Prop := ∃ msg, e = ValueError msg.

Definition is_value_or_overflow (e : Exn) : Prop :=
  (∃ msg, e = ValueError msg) ∨ (∃ msg, e = OverflowError msg).

(** ** Sample environments, worlds and invocations *)

Definition env0 : Env :=
  mkEnv (λ n, mkDateTime 2026 11 3 9 15 (Z.of_nat n) 0 None)
        (λ n, 1793700000 + Z.of_nat n)
        (λ dt, Ok (year dt * 31536000)) (λ _, Raise (ValueError "bad date"))
        (λ p, if String.eqb p "ro/new" then Some "Permission denied" else None)
        (λ p, if String.eqb p "locked" then Some "Operation not permitted"
              else None)
        (λ _, 0).

Definition now0_sample : DateTime := mkDateTime 2026 11 3 9 15 0 0 None.

Definition world0 : World :=
  mkWorld (<["locked" := mkFile "x" 1 2]> (<["old" := mkFile "y" 3 4]> ∅))
          0 [] [].

Definition args_batch : Args :=
  mkArgs ["locked"; "new"; "old"] false false false None None None.

Definition args_no_create : Args :=
  mkArgs ["absent"; "old"] false false true None None None.

Definition args_no_create_single : Args :=
  mkArgs ["absent"] false false true None None None.

Definition env_refuse_new : Env :=
  mkEnv (now_datetime env0) (now_timestamp env0) (timestamp env0)
        (parse_date env0) (λ _, None)
        (λ p, if String.eqb p "new" then Some "Operation not permitted"
              else None)
        (λ _, 0).

Definition args_new_old : Args :=
  mkArgs ["new"; "old"] false false false None None None.

Definition world_epoch : World :=
  mkWorld (<["ref" := mkFile "r" 0 0]> (<["old" := mkFile "y" 3 4]> ∅))
          0 [] [].

Definition args_ref : Args :=
  mkArgs ["old"] false false false None (Some "ref") None.

Definition args_only_a : Args :=
  mkArgs ["old"] true false false None None None.

Definition env_date : Env :=
  mkEnv (now_datetime env0) (now_timestamp env0)
        (λ dt, Ok ((year dt - 1970) * 31536000 + 1036800))
        (λ s, if String.eqb s "2020-01-01"
              then Ok (mkDateTime 2020 1 1 0 0 0 0 None)
              else Raise (ValueError "Unknown string format"))
        (λ _, None) (λ _, None) (λ _, 0).

Definition env_date_later : Env :=
  mkEnv (λ n, mkDateTime 2027 2 14 18 0 (Z.of_nat n) 0 None)
        (λ n, 1802628000 + Z.of_nat n)
        (timestamp env_date) (parse_date env_date)
        (λ _, None) (λ _, None) (λ _, 0).

Definition args_a_date : Args :=
  mkArgs ["old"] true false false (Some "2020-01-01") None None.




Definition args_empty_t : Args :=
  mkArgs ["new"] false false false None None (Some "").

Definition args_empty_r : Args :=
  mkArgs ["new"] false false false None (Some "") None.

Definition args_empty_d : Args :=
  mkArgs ["new"] false false false (Some "") None None.

Definition args_locked_only : Args :=
  mkArgs ["locked"; "ro/new"] false false false None None None.


Definition args_missing_ref : Args :=
  mkArgs ["old"] false false false None (Some "nowhere") None.

Definition args_huge_seconds : Args :=
  mkArgs ["old"] false false false None None (Some "12251430.4294967296").

Definition args_bad_t : Args :=
  mkArgs ["old"] false false false None None (Some "02301430").

Definition args_bad_date : Args :=
  mkArgs ["old"] false false false (Some "tomorrowish") None None.

Definition refuse_locked (p : string) : option string :=
  if String.eqb p "locked" then Some "Permission denied" else None.

(** * Properties *)

(** ** The file toucher *)

Section Toucher.
Context (E : Env).

Lemma final_atime_given atime mtime c :
  is_Some atime ∨ is_Some mtime →
  final_atime atime mtime c = written_atime atime mtime.
Proof. destruct atime, mtime; intros [[x Hx]|[x Hx]]; done. Qed.

Lemma final_mtime_given atime mtime c :
  is_Some atime ∨ is_Some mtime →
  final_mtime atime mtime c = written_mtime atime mtime.
Proof. destruct atime, mtime; intros [[x Hx]|[x Hx]]; done. Qed.

(** [set_times] on a file that exists. *)
Lemma set_times_exists p mtime atime w f :
  is_Some atime ∨ is_Some mtime →
  fs w !! p = Some f →
  set_times E p mtime atime w =
    match utime_error E p with
    | None =>
        (Ok true,
         set_fs (<[p := mkFile (content f) (written_atime atime mtime)
                           (written_mtime atime mtime)]> (fs w)) w)
    | Some msg => (Ok false, print_err (msg_set_times p msg) w)
    end.
Proof.
  intros Hg Hf. unfold set_times, os_stat, os_utime. rewrite Hf.
  assert (Ht : (match mtime, atime with
                | None, None => Ok None
                | _, _ =>
                    stat ← Ok f;
                    Ok (Some (final_atime atime mtime (st_atime stat),
                              final_mtime atime mtime (st_mtime stat)))
                end) = Ok (Some (written_atime atime mtime,
                                 written_mtime atime mtime))).
  { destruct mtime, atime; destruct Hg as [[x Hx]|[x Hx]]; done. }
  rewrite Ht. destruct (utime_error E p); reflexivity.
Qed.

(** Every case of [update_timestamps], when a time is given. *)
Lemma update_timestamps_cases p mtime atime nc w :
  is_Some atime ∨ is_Some mtime →
  update_timestamps E p mtime atime nc w =
    let A := written_atime atime mtime in
    let M := written_mtime atime mtime in
    match fs w !! p with
    | Some f =>
        match utime_error E p with
        | None => (Ok true, set_fs (<[p := mkFile (content f) A M]> (fs w)) w)
        | Some msg => (Ok false, print_err (msg_set_times p msg) w)
        end
    | None =>
        if nc then (Ok false, print_out (msg_no_create p) w)
        else
          match open_error E p with
          | Some msg => (Ok false, print_err (msg_cannot_create p msg) w)
          | None =>
              let t := now_timestamp E (clock w) in
              match utime_error E p with
              | None =>
                  (Ok true,
                   mkWorld (<[p := mkFile "" A M]> (fs w)) (S (clock w))
                     (stdout w ++ [msg_created p]) (stderr w))
              | Some msg =>
                  (Ok false,
                   mkWorld (<[p := mkFile "" t t]> (fs w)) (S (clock w))
                     (stdout w ++ [msg_created p])
                     (stderr w ++ [msg_set_times p msg]))
              end
          end
    end.
Proof.
  intros Hg. unfold update_timestamps, os_path_exists. cbv zeta.
  destruct (fs w !! p) as [f|] eqn:Hf.
  - rewrite bool_decide_eq_true_2 by eauto. simpl.
    by apply set_times_exists.
  - rewrite bool_decide_eq_false_2 by (intros [? ?]; done). simpl.
    destruct nc; [reflexivity|].
    unfold open_append. rewrite Hf.
    destruct (open_error E p) as [msg|]; [reflexivity|].
    erewrite set_times_exists; [|done|simpl; apply lookup_insert_eq].
    destruct (utime_error E p); simpl; [reflexivity|].
    unfold set_fs. simpl. by rewrite insert_insert_eq.
Qed.

(** *** One call of [update_timestamps] *)

Section Step.
Context (mtime atime : option Timestamp) (nc : bool).
Context (Hg : is_Some atime ∨ is_Some mtime).

Let A := written_atime atime mtime.
Let M := written_mtime atime mtime.

Ltac touch_cases p w :=
  rewrite (update_timestamps_cases p mtime atime nc w Hg); cbv zeta;
  destruct (fs w !! p) eqn:?;
  [ destruct (utime_error E p) eqn:?
  | destruct nc eqn:?;
    [ | destruct (open_error E p) eqn:?;
        [ | destruct (utime_error E p) eqn:? ] ] ].

Ltac touch_done :=
  simplify_eq/=; try done;
  try (eexists; split;
       [ first [apply lookup_insert_eq | eassumption] | by simpl ]).

Ltac in_stream :=
  rewrite ?elem_of_app, ?list_elem_of_singleton; auto.

Lemma step_returns p w :
  ∃ w1, update_timestamps E p mtime atime nc w
        = (Ok (would_succeed E nc w p), w1).
Proof.
  unfold would_succeed. touch_cases p w; eexists;
    repeat (rewrite ?bool_decide_eq_true_2, ?bool_decide_eq_false_2
              by (first [done | eauto | by intros [? ?]]));
    simpl; reflexivity.
Qed.

Lemma step_frame p w r w1 q :
  update_timestamps E p mtime atime nc w = (r, w1) →
  q ≠ p → fs w1 !! q = fs w !! q.
Proof.
  touch_cases p w; intros [= <- <-] Hq; simpl;
    rewrite ?lookup_insert_ne by done; done.
Qed.

Lemma step_stamps p w w1 :
  update_timestamps E p mtime atime nc w = (Ok true, w1) →
  stamped w1 p A M.
Proof.
  touch_cases p w; intros [= <-]; eexists; simpl;
    (split; [apply lookup_insert_eq | done]).
Qed.

Lemma step_keeps_stamp p w r w1 q :
  update_timestamps E p mtime atime nc w = (r, w1) →
  stamped w q A M → stamped w1 q A M.
Proof.
  intros Hu (f & Hf & Ha & Hm). destruct (decide (q = p)) as [->|Hne].
  - revert Hu. touch_cases p w; intros [= <- <-]; touch_done.
  - exists f. by rewrite (step_frame _ _ _ _ _ Hu Hne).
Qed.

Lemma step_keeps_content p w r w1 q f :
  update_timestamps E p mtime atime nc w = (r, w1) →
  fs w !! q = Some f →
  ∃ f', fs w1 !! q = Some f' ∧ content f' = content f.
Proof.
  intros Hu Hf. destruct (decide (q = p)) as [->|Hne].
  - revert Hu. touch_cases p w; intros [= <- <-]; touch_done.
  - exists f. by rewrite (step_frame _ _ _ _ _ Hu Hne).
Qed.

Lemma step_would_succeed p w r w1 q :
  update_timestamps E p mtime atime nc w = (r, w1) →
  would_succeed E nc w1 q = would_succeed E nc w q.
Proof.
  intros Hu. unfold would_succeed. destruct (decide (q = p)) as [->|Hne].
  - revert Hu. touch_cases p w; intros [= <- <-]; simpl;
      rewrite ?lookup_insert_eq;
      repeat match goal with H : _ = _ |- _ => rewrite H end;
      repeat (rewrite ?bool_decide_eq_true_2, ?bool_decide_eq_false_2
                by (first [done | eauto | by intros [? ?]]));
      simpl; try reflexivity.
  - by rewrite (step_frame _ _ _ _ _ Hu Hne).
Qed.

Lemma step_no_create p w r w1 q :
  update_timestamps E p mtime atime nc w = (r, w1) →
  nc = true → fs w !! q = None → fs w1 !! q = None.
Proof.
  intros Hu Hnc Hq. destruct (decide (q = p)) as [->|Hne].
  - revert Hu. touch_cases p w; intros [= <- <-]; simpl; congruence.
  - by rewrite (step_frame _ _ _ _ _ Hu Hne).
Qed.

Lemma step_stdout p w r w1 line :
  update_timestamps E p mtime atime nc w = (r, w1) →
  line ∈ stdout w → line ∈ stdout w1.
Proof.
  touch_cases p w; intros [= <- <-]; simpl; in_stream.
Qed.

Lemma step_stderr p w r w1 line :
  update_timestamps E p mtime atime nc w = (r, w1) →
  line ∈ stderr w → line ∈ stderr w1.
Proof.
  touch_cases p w; intros [= <- <-]; simpl; in_stream.
Qed.

Lemma step_skip_diagnostic p w r w1 :
  update_timestamps E p mtime atime nc w = (r, w1) →
  nc = true → fs w !! p = None → msg_no_create p ∈ stdout w1.
Proof.
  touch_cases p w; intros [= <- <-]; simpl; try congruence; in_stream.
Qed.

Lemma step_creates p w r w1 :
  update_timestamps E p mtime atime nc w = (r, w1) →
  nc = false → fs w !! p = None → open_error E p = None →
  ∃ f, fs w1 !! p = Some f ∧ content f = "".
Proof.
  touch_cases p w; intros [= <- <-]; simpl; try congruence; intros;
    eexists; (split; [apply lookup_insert_eq | done]).
Qed.

Lemma step_time_set_error p w r w1 msg :
  update_timestamps E p mtime atime nc w = (r, w1) →
  utime_error E p = Some msg →
  is_Some (fs w !! p) ∨ (nc = false ∧ open_error E p = None) →
  msg_set_times p msg ∈ stderr w1.
Proof.
  touch_cases p w; intros [= <- <-]; simpl; intros Hm [[? ?]|[? ?]];
    try congruence; simplify_eq; in_stream.
Qed.

(** *** The loop over the paths *)

Lemma touch_all_returns files w :
  ∃ w', touch_all E files mtime atime nc w
        = (Ok (filter (λ p, would_succeed E nc w p) files), w').
Proof.
  revert w. induction files as [|p files IH]; intros w; simpl.
  - by eexists.
  - destruct (step_returns p w) as [w1 H1]. rewrite H1.
    destruct (IH w1) as [w2 H2]. rewrite H2. exists w2.
    rewrite (list_filter_iff (λ q, would_succeed E nc w1 q)
               (λ q, would_succeed E nc w q))
      by (intros q; by rewrite (step_would_succeed _ _ _ _ q H1)).
    rewrite filter_cons.
    destruct (would_succeed E nc w p); simpl; reflexivity.
Qed.

(** Splits one round of the loop into the call and the rest of the loop. *)
Ltac loop_round p w Hu :=
  simpl;
  destruct (update_timestamps E p mtime atime nc w) as [[b|e] w1] eqn:Hu;
  [ | pose proof (step_returns p w) as [? ?]; congruence ];
  match goal with
  | |- context [touch_all E ?fl mtime atime nc w1] =>
      let H2 := fresh "Hrest" in
      destruct (touch_all E fl mtime atime nc w1) as [[succ|e2] w2] eqn:H2;
      [ | pose proof (touch_all_returns fl w1) as [? ?]; congruence ]
  end.

Lemma touch_all_keeps_stamp files w r w' q :
  touch_all E files mtime atime nc w = (r, w') →
  stamped w q A M → stamped w' q A M.
Proof.
  revert w r w'. induction files as [|p files IH]; intros w r w'.
  - by intros [= <- <-].
  - loop_round p w Hu. intros [= <- <-] Hs.
    eapply IH; [done|]. by eapply step_keeps_stamp.
Qed.

Lemma touch_all_stamps files w r w' q :
  touch_all E files mtime atime nc w = (r, w') →
  q ∈ files → would_succeed E nc w q = true → stamped w' q A M.
Proof.
  revert w r w'. induction files as [|p files IH]; intros w r w'.
  - intros _ Hq. by apply elem_of_nil in Hq.
  - loop_round p w Hu. intros [= <- <-] Hq Hok.
    destruct (decide (q = p)) as [->|Hne].
    + eapply touch_all_keeps_stamp; [done|].
      eapply step_stamps. rewrite Hu.
      destruct (step_returns p w) as [? Hr]. congruence.
    + apply elem_of_cons in Hq as [?|Hq]; [done|].
      eapply IH; [done..|]. by rewrite (step_would_succeed _ _ _ _ q Hu).
Qed.

Lemma touch_all_frame files w r w' q :
  touch_all E files mtime atime nc w = (r, w') →
  q ∉ files → fs w' !! q = fs w !! q.
Proof.
  revert w r w'. induction files as [|p files IH]; intros w r w'.
  - by intros [= <- <-].
  - loop_round p w Hu. intros [= <- <-] Hq.
    apply not_elem_of_cons in Hq as [Hne Hq].
    rewrite (IH _ _ _ Hrest Hq). by eapply step_frame.
Qed.

Lemma touch_all_keeps_content files w r w' q f :
  touch_all E files mtime atime nc w = (r, w') →
  fs w !! q = Some f →
  ∃ f', fs w' !! q = Some f' ∧ content f' = content f.
Proof.
  revert w r w' f. induction files as [|p files IH]; intros w r w' f.
  - intros [= <- <-]. eauto.
  - loop_round p w Hu. intros [= <- <-] Hf.
    destruct (step_keeps_content _ _ _ _ _ _ Hu Hf) as (f1 & Hf1 & Hc1).
    destruct (IH _ _ _ _ Hrest Hf1) as (f2 & Hf2 & Hc2).
    exists f2. split; [done | congruence].
Qed.

Lemma touch_all_no_create files w r w' q :
  touch_all E files mtime atime nc w = (r, w') →
  nc = true → fs w !! q = None → fs w' !! q = None.
Proof.
  revert w r w'. induction files as [|p files IH]; intros w r w'.
  - by intros [= <- <-].
  - loop_round p w Hu. intros [= <- <-] Hnc Hq.
    eapply IH; [done..|]. by eapply step_no_create.
Qed.

Lemma touch_all_stdout files w r w' line :
  touch_all E files mtime atime nc w = (r, w') →
  line ∈ stdout w → line ∈ stdout w'.
Proof.
  revert w r w'. induction files as [|p files IH]; intros w r w'.
  - by intros [= <- <-].
  - loop_round p w Hu. intros [= <- <-] Hl.
    eapply IH; [done|]. by eapply step_stdout.
Qed.

Lemma touch_all_stderr files w r w' line :
  touch_all E files mtime atime nc w = (r, w') →
  line ∈ stderr w → line ∈ stderr w'.
Proof.
  revert w r w'. induction files as [|p files IH]; intros w r w'.
  - by intros [= <- <-].
  - loop_round p w Hu. intros [= <- <-] Hl.
    eapply IH; [done|]. by eapply step_stderr.
Qed.

Lemma touch_all_skip_diagnostic files w r w' q :
  touch_all E files mtime atime nc w = (r, w') →
  q ∈ files → nc = true → fs w !! q = None →
  msg_no_create q ∈ stdout w'.
Proof.
  revert w r w'. induction files as [|p files IH]; intros w r w'.
  - intros _ Hq. by apply elem_of_nil in Hq.
  - loop_round p w Hu. intros [= <- <-] Hq Hnc Hmiss.
    destruct (decide (q = p)) as [->|Hne].
    + eapply touch_all_stdout; [done|]. by eapply step_skip_diagnostic.
    + apply elem_of_cons in Hq as [?|Hq]; [done|].
      eapply IH; [done..|]. by eapply step_no_create.
Qed.

Lemma touch_all_time_set_error files w r w' q msg :
  touch_all E files mtime atime nc w = (r, w') →
  q ∈ files → fs w !! q = None → nc = false →
  open_error E q = None → utime_error E q = Some msg →
  (∃ f, fs w' !! q = Some f ∧ content f = "")
  ∧ msg_set_times q msg ∈ stderr w'.
Proof.
  revert w r w'. induction files as [|p files IH]; intros w r w'.
  - intros _ Hq. by apply elem_of_nil in Hq.
  - loop_round p w Hu. intros [= <- <-] Hq Hmiss Hnc Hop Hut.
    destruct (decide (q = p)) as [->|Hne].
    + destruct (step_creates _ _ _ _ Hu Hnc Hmiss Hop) as (f1 & Hf1 & Hc1).
      destruct (touch_all_keeps_content _ _ _ _ _ _ Hrest Hf1)
        as (f2 & Hf2 & Hc2).
      split; [exists f2; split; [done | congruence]|].
      eapply touch_all_stderr; [done|].
      eapply step_time_set_error; [done..|]. by right.
    + apply elem_of_cons in Hq as [?|Hq]; [done|].
      eapply IH; [done| done | | done..].
      by rewrite (step_frame _ _ _ _ _ Hu Hne).
Qed.

End Step.

End Toucher.

(** ** The resolver and [main] *)

Section Main.
Context (E : Env).

Lemma would_succeed_fs nc w w' p :
  fs w' = fs w → would_succeed E nc w' p = would_succeed E nc w p.
Proof. unfold would_succeed. by intros ->. Qed.

Lemma or_now_fs x w : fs (or_now E x w).2 = fs w.
Proof. unfold or_now. destruct x; [destruct (truthy_ts _)|]; done. Qed.

Lemma or_now_streams x w :
  stdout (or_now E x w).2 = stdout w ∧ stderr (or_now E x w).2 = stderr w.
Proof. unfold or_now. destruct x; [destruct (truthy_ts _)|]; done. Qed.

Lemma or_now_zero w :
  or_now E (Some 0) w = (now_timestamp E (clock w), tick w).
Proof. reflexivity. Qed.

Lemma or_now_absent w :
  or_now E None w = (now_timestamp E (clock w), tick w).
Proof. reflexivity. Qed.

Lemma or_now_clock x w :
  clock (or_now E x w).2 = clock w ∨ clock (or_now E x w).2 = S (clock w).
Proof. unfold or_now. destruct x; [destruct (truthy_ts _)|]; simpl; auto. Qed.

(** [select_times] always fills at least one slot and only reads the
    clock. *)
Lemma select_times_spec args ac mc w :
  ∃ af mf w',
    select_times E args ac mc w = ((af, mf), w')
    ∧ (is_Some af ∨ is_Some mf)
    ∧ fs w' = fs w ∧ stdout w' = stdout w ∧ stderr w' = stderr w.
Proof.
  unfold select_times.
  destruct (flag_a args && negb (flag_m args));
    [|destruct (flag_m args && negb (flag_a args))].
  - pose proof (or_now_fs ac w). pose proof (or_now_streams ac w) as [? ?].
    destruct (or_now E ac w) as [x w1]. do 3 eexists.
    split; [done|]. split; [left; eauto|]. done.
  - pose proof (or_now_fs mc w). pose proof (or_now_streams mc w) as [? ?].
    destruct (or_now E mc w) as [x w1]. do 3 eexists.
    split; [done|]. split; [right; eauto|]. done.
  - pose proof (or_now_fs ac w). pose proof (or_now_streams ac w) as [? ?].
    destruct (or_now E ac w) as [x w1].
    pose proof (or_now_fs mc w1). pose proof (or_now_streams mc w1) as [? ?].
    destruct (or_now E mc w1) as [y w2]. do 3 eexists.
    split; [done|]. split; [left; eauto|]. simpl in *.
    repeat split; congruence.
Qed.

(** Resolving the time source does not touch any file, and it prints
    nothing when it succeeds. *)
Lemma resolve_source_fs args w r w1 :
  resolve_source E args w = (r, w1) → fs w1 = fs w.
Proof.
  unfold resolve_source.
  repeat case_match; intros [= <- <-]; reflexivity.
Qed.

Lemma resolve_source_quiet args w ac mc w1 :
  resolve_source E args w = (inr (ac, mc), w1) →
  stdout w1 = stdout w ∧ stderr w1 = stderr w.
Proof.
  unfold resolve_source.
  repeat case_match; intros [= <- <- <-]; done.
Qed.

Lemma at_exit_fs o w : fs (at_exit o w) = fs w.
Proof. by destruct o. Qed.

Lemma at_exit_stdout o w : stdout (at_exit o w) = stdout w.
Proof. by destruct o. Qed.

Lemma at_exit_stderr o w line : line ∈ stderr w → line ∈ stderr (at_exit o w).
Proof. destruct o; simpl; rewrite ?elem_of_app; auto. Qed.

(** [main] after a successful resolution: the selection, the loop and the
    ending, with the list of touched paths made explicit. *)
Lemma main_resolved args w ac mc w1 :
  resolve_source E args w = (inr (ac, mc), w1) →
  ∃ af mf w2 w3 w',
    select_times E args ac mc w1 = ((af, mf), w2)
    ∧ (is_Some af ∨ is_Some mf)
    ∧ fs w2 = fs w
    ∧ stdout w2 = stdout w ∧ stderr w2 = stderr w
    ∧ touch_all E (file args) mf af (no_create args) w2
      = (Ok (filter (λ p, would_succeed E (no_create args) w p) (file args)),
         w3)
    ∧ main E args w
      = (batch_outcome
           (filter (λ p, would_succeed E (no_create args) w p) (file args)),
         w')
    ∧ fs w' = fs w3
    ∧ (∀ line, line ∈ stdout w3 → line ∈ stdout w')
    ∧ (∀ line, line ∈ stderr w3 → line ∈ stderr w').
Proof.
  intros Hr.
  destruct (select_times_spec args ac mc w1) as (af & mf & w2 & Hs & Hg & Hfs & Ho & He).
  destruct (touch_all_returns E mf af (no_create args) Hg (file args) w2)
    as [w3 Ht].
  pose proof (resolve_source_fs _ _ _ _ Hr) as Hfs1.
  pose proof (resolve_source_quiet _ _ _ _ _ Hr) as [Ho1 He1].
  assert (Hfilter :
    filter (λ p, would_succeed E (no_create args) w2 p) (file args)
    = filter (λ p, would_succeed E (no_create args) w p) (file args)).
  { apply list_filter_iff. intros q.
    rewrite (would_succeed_fs _ w w2); [done | congruence]. }
  rewrite Hfilter in Ht.
  set (succ := filter (λ p, would_succeed E (no_create args) w p) (file args))
    in *.
  exists af, mf, w2, w3.
  unfold main, touch_phase. rewrite Hr, Hs, Ht.
  destruct succ as [|q succ'] eqn:Hsucc; eexists;
    (split; [done|]); (split; [done|]); (split; [congruence|]);
    (split; [congruence|]); (split; [congruence|]); (split; [done|]);
    (split; [reflexivity|]); simpl;
    (split; [done|]); split; intros line; rewrite ?elem_of_app; auto.
Qed.

(** Every path of the batch that can be touched ends up carrying the
    selected pair of times. *)
Lemma main_stamps args w ac mc w1 p :
  resolve_source E args w = (inr (ac, mc), w1) →
  p ∈ file args →
  would_succeed E (no_create args) w p = true →
  let sel := (select_times E args ac mc w1).1 in
  stamped (main E args w).2 p
    (written_atime sel.1 sel.2) (written_mtime sel.1 sel.2).
Proof.
  intros Hr Hp Hok sel.
  destruct (main_resolved args w ac mc w1 Hr)
    as (af & mf & w2 & w3 & wf & Hs & Hg & Hfs & _ & _ & Ht & Hm & Hfsf & _).
  subst sel. rewrite Hm, Hs. simpl.
  destruct (touch_all_stamps E mf af (no_create args) Hg (file args) w2 _ w3 p
              Ht Hp) as (f & Hf & Ha & Hmt).
  { rewrite (would_succeed_fs (no_create args) w w2); done. }
  exists f. by rewrite Hfsf.
Qed.

End Main.

(** ** Batch policy *)

(** C6: once the time source is resolved, every path of the batch that can
    be touched (it exists or may be created, and its times may be set) is
    touched with the selected times whatever happens to the other paths;
    the successful set is exactly those paths; and when it is not empty
    the program opens the dialog on it and exits with the event loop's
    status, 0 when the dialog closes normally. *)
Theorem C6_batch_independent E args w ac mc w1 :
  resolve_source E args w = (inr (ac, mc), w1) →
  let nc := no_create args in
  let successful := filter (λ p, would_succeed E nc w p) (file args) in
  let sel := (select_times E args ac mc w1).1 in
  let o := (main E args w).1 in
  let w' := (main E args w).2 in
  (∀ p, p ∈ file args → would_succeed E nc w p = true →
        stamped w' p (written_atime sel.1 sel.2) (written_mtime sel.1 sel.2)
        ∧ p ∈ successful)
  ∧ (successful ≠ [] →
     o = LaunchGUI successful
     ∧ (gui_exec E successful = 0 → exit_code E o = 0)).
Proof.
  intros Hr nc successful sel o w'.
  destruct (main_resolved E args w ac mc w1 Hr)
    as (af & mf & w2 & w3 & wf & Hs & Hg & Hfs & _ & _ & Ht & Hm & Hfsf & _).
  subst sel o w'. rewrite Hm, Hs. simpl. fold nc. fold successful. split.
  - intros p Hp Hok. split.
    + destruct (touch_all_stamps E mf af nc Hg (file args) w2 _ w3 p Ht Hp)
        as (f & Hf & Ha & Hmt).
      { rewrite (would_succeed_fs E nc w w2); done. }
      exists f. by rewrite Hfsf.
    + apply list_elem_of_filter. split; [by rewrite Hok | done].
  - intros Hne. destruct successful as [|q l] eqn:Hq; [done|]. simpl.
    split; [done|]. auto.
Qed.

Lemma C6_batch_independent_witness :
  stamped (main env0 args_batch world0).2 "new" 1793700000 1793700001
  ∧ stamped (main env0 args_batch world0).2 "locked" 1 2
  ∧ exit_code env0 (main env0 args_batch world0).1 = 0.
Proof.
  destruct (C6_batch_independent env0 args_batch world0 None None world0
              eq_refl) as [H1 H2].
  split; [|split].
  - apply (H1 "new"); [|reflexivity].
    apply list_elem_of_In. simpl. auto.
  - vm_compute. eexists. split; [reflexivity|]. split; reflexivity.
  - apply H2; [discriminate | reflexivity].
Defined.

(** C7: with [-c], a target path that does not exist is not created, the
    skip diagnostic naming it is printed, it is not in the successful set,
    the other paths are still touched, and when it is the only path the
    program exits with status 1. *)
Theorem C7_no_create_skips E args w ac mc w1 p :
  resolve_source E args w = (inr (ac, mc), w1) →
  no_create args = true →
  p ∈ file args →
  fs w !! p = None →
  let sel := (select_times E args ac mc w1).1 in
  let o := (main E args w).1 in
  let w' := (main E args w).2 in
  fs w' !! p = None
  ∧ msg_no_create p ∈ stdout w'
  ∧ (∀ successful, o = LaunchGUI successful → p ∉ successful)
  ∧ (∀ q, q ∈ file args → would_succeed E true w q = true →
          stamped w' q (written_atime sel.1 sel.2) (written_mtime sel.1 sel.2))
  ∧ (file args = [p] → o = Exited 1 ∧ exit_code E o = 1).
Proof.
  intros Hr Hnc Hp Hmiss sel o w'.
  destruct (main_resolved E args w ac mc w1 Hr)
    as (af & mf & w2 & w3 & wf & Hs & Hg & Hfs & _ & _ & Ht & Hm & Hfsf & Ho & _).
  subst sel o w'. rewrite Hm, Hs. simpl. rewrite Hnc in *.
  assert (Hmiss2 : fs w2 !! p = None) by (by rewrite Hfs).
  assert (Hbad : would_succeed E true w p = false).
  { unfold would_succeed. rewrite Hmiss.
    rewrite bool_decide_eq_false_2 by (by intros [? ?]). done. }
  split; [|split; [|split; [|split]]].
  - rewrite Hfsf. by eapply touch_all_no_create.
  - apply Ho. by eapply touch_all_skip_diagnostic.
  - intros successful Hl Hin.
    assert (p ∈ filter (λ q, would_succeed E true w q) (file args)) as Hf.
    { destruct (filter _ (file args)); simplify_eq/=. done. }
    apply list_elem_of_filter in Hf as [Hf _]. by rewrite Hbad in Hf.
  - intros q Hq Hok.
    destruct (touch_all_stamps E mf af true Hg (file args) w2 _ w3 q Ht Hq)
      as (f & Hf & Ha & Hmt).
    { rewrite (would_succeed_fs E true w w2); done. }
    exists f. by rewrite Hfsf.
  - intros Hone. rewrite Hone. rewrite filter_cons, Hbad. simpl. done.
Qed.

Lemma C7_no_create_skips_witness :
  fs (main env0 args_no_create world0).2 !! "absent" = None
  ∧ stamped (main env0 args_no_create world0).2 "old" 1793700000 1793700001
  ∧ exit_code env0 (main env0 args_no_create_single world0).1 = 1.
Proof.
  pose proof (C7_no_create_skips env0 args_no_create world0 None None world0
                "absent" eq_refl eq_refl) as H.
  pose proof (C7_no_create_skips env0 args_no_create_single world0 None None
                world0 "absent" eq_refl eq_refl) as H'.
  destruct H as (H1 & _ & _ & H4 & _);
    [apply list_elem_of_In; simpl; auto | reflexivity |].
  destruct H' as (_ & _ & _ & _ & H5);
    [apply list_elem_of_In; simpl; auto | reflexivity |].
  split; [exact H1|]. split.
  - apply (H4 "old"); [|reflexivity].
    apply list_elem_of_In. simpl. auto.
  - apply H5. reflexivity.
Defined.

(** C10: when a missing path is created but the system then refuses to
    set its times, the new empty file stays, the failure is reported on
    the error stream, and the path is not in the successful set. *)
Theorem C10_created_file_remains E args w ac mc w1 p msg :
  resolve_source E args w = (inr (ac, mc), w1) →
  no_create args = false →
  p ∈ file args →
  fs w !! p = None →
  open_error E p = None →
  utime_error E p = Some msg →
  let o := (main E args w).1 in
  let w' := (main E args w).2 in
  (∃ f, fs w' !! p = Some f ∧ content f = "")
  ∧ msg_set_times p msg ∈ stderr w'
  ∧ (∀ successful, o = LaunchGUI successful → p ∉ successful).
Proof.
  intros Hr Hnc Hp Hmiss Hop Hut o w'.
  destruct (main_resolved E args w ac mc w1 Hr)
    as (af & mf & w2 & w3 & wf & Hs & Hg & Hfs & _ & _ & Ht & Hm & Hfsf & _ & He).
  subst o w'. rewrite Hm. simpl. rewrite Hnc in *.
  assert (Hmiss2 : fs w2 !! p = None) by (by rewrite Hfs).
  destruct (touch_all_time_set_error E mf af false Hg (file args) w2 _ w3 p msg
              Ht Hp Hmiss2 eq_refl Hop Hut) as [(f & Hf & Hc) Herr].
  split; [|split].
  - exists f. by rewrite Hfsf.
  - by apply He.
  - intros successful Hl Hin.
    assert (p ∈ filter (λ q, would_succeed E false w q) (file args)) as Hf'.
    { destruct (filter _ (file args)); simplify_eq/=. done. }
    apply list_elem_of_filter in Hf' as [Hf' _].
    unfold would_succeed in Hf'. rewrite Hut in Hf'.
    rewrite (bool_decide_eq_false_2 (Some msg = None)) in Hf' by done.
    by rewrite andb_false_r in Hf'.
Qed.

Lemma C10_created_file_remains_witness :
  (∃ f, fs (main env_refuse_new args_new_old world0).2 !! "new" = Some f
        ∧ content f = "")
  ∧ msg_set_times "new" "Operation not permitted"
      ∈ stderr (main env_refuse_new args_new_old world0).2
  ∧ (∀ successful,
       (main env_refuse_new args_new_old world0).1 = LaunchGUI successful →
       "new" ∉ successful).
Proof.
  apply (C10_created_file_remains env_refuse_new args_new_old world0
           None None world0 "new" "Operation not permitted");
    [ reflexivity | reflexivity | apply list_elem_of_In; simpl; auto
    | reflexivity.. ].
Defined.

(** ** The fallback chain *)

Lemma final_atime_chain atime mtime current now :
  final_atime atime mtime current = fallback_chain atime mtime current now.
Proof. by destruct atime, mtime. Qed.

Lemma final_mtime_chain atime mtime current now :
  final_mtime atime mtime current = fallback_chain mtime atime current now.
Proof. by destruct atime, mtime. Qed.

(** C3: when [update_timestamps] is applied with one slot set and the
    other unset and the touch succeeds, each time written is the first
    value present in the chain: the slot's explicit value, the sibling
    slot's value, the value [os.stat] reports for the file, the current
    time. *)
Theorem C3_fallback_chain E p mtime atime nc w w1 now :
  (is_Some atime ∧ mtime = None) ∨ (atime = None ∧ is_Some mtime) →
  update_timestamps E p mtime atime nc w = (Ok true, w1) →
  let st := stat_at_apply E w p in
  stamped w1 p (fallback_chain atime mtime (st_atime st) now)
               (fallback_chain mtime atime (st_mtime st) now).
Proof.
  intros Hone Hu st.
  assert (Hg : is_Some atime ∨ is_Some mtime) by (destruct Hone; tauto).
  rewrite <- final_atime_chain, <- final_mtime_chain.
  rewrite (final_atime_given _ _ _ Hg), (final_mtime_given _ _ _ Hg).
  by eapply step_stamps.
Qed.

Lemma C3_fallback_chain_witness :
  stamped (update_timestamps env0 "old" None (Some 77) false world0).2 "old"
    77 77.
Proof.
  apply (C3_fallback_chain env0 "old" None (Some 77) false world0 _ 0).
  - left. split; [by eexists | reflexivity].
  - reflexivity.
Defined.

(** ** Current time *)

(** C9: a base timestamp equal to 0 counts as absent: the slot selected
    by the flags gets a reading of the clock instead, and nothing is
    printed. *)
Theorem C9_epoch_replaced_by_now E args ac mc w :
  let sel := (select_times E args ac mc w).1 in
  let w' := (select_times E args ac mc w).2 in
  (ac = Some 0 → flag_m args && negb (flag_a args) = false →
   sel.1 = Some (now_timestamp E (clock w)))
  ∧ (mc = Some 0 → flag_a args && negb (flag_m args) = false →
     ∃ n, (clock w ≤ n < clock w')%nat ∧ sel.2 = Some (now_timestamp E n))
  ∧ stdout w' = stdout w ∧ stderr w' = stderr w.
Proof.
  intros sel w'. subst sel w'. unfold select_times.
  pose proof (or_now_streams E ac w) as [Hao Hae].
  pose proof (or_now_clock E ac w) as Hac.
  destruct (flag_a args), (flag_m args); simpl.
  - (* both flags *)
    pose proof (or_now_streams E mc (or_now E ac w).2) as [Hmo Hme].
    destruct (or_now E ac w) as [x wa] eqn:Ha. simpl in *.
    destruct (or_now E mc wa) as [y wm] eqn:Hm. simpl in *.
    split; [|split; [|split; congruence]].
    + intros -> _. rewrite or_now_zero in Ha. congruence.
    + intros -> _. rewrite or_now_zero in Hm. simplify_eq/=.
      eexists; split; [|reflexivity]. lia.
  - destruct (or_now E ac w) as [x wa] eqn:Ha. simpl in *.
    split; [|split; [|done]]; [|done].
    intros -> _. rewrite or_now_zero in Ha. congruence.
  - pose proof (or_now_streams E mc w) as [Hmo Hme].
    destruct (or_now E mc w) as [y wm] eqn:Hm. simpl in *.
    split; [done|]. split; [|done]. intros -> _.
    rewrite or_now_zero in Hm. simplify_eq/=.
    eexists; split; [|reflexivity]. lia.
  - (* no flag *)
    pose proof (or_now_streams E mc (or_now E ac w).2) as [Hmo Hme].
    destruct (or_now E ac w) as [x wa] eqn:Ha. simpl in *.
    destruct (or_now E mc wa) as [y wm] eqn:Hm. simpl in *.
    split; [|split; [|split; congruence]].
    + intros -> _. rewrite or_now_zero in Ha. congruence.
    + intros -> _. rewrite or_now_zero in Hm. simplify_eq/=.
      eexists; split; [|reflexivity]. lia.
Qed.

Lemma C9_epoch_replaced_by_now_witness :
  (select_times env0 args_ref (Some 0) (Some 0) world_epoch).1.1
    = Some 1793700000
  ∧ (∃ n, (0 ≤ n < clock (select_times env0 args_ref (Some 0%Z) (Some 0%Z)
                            world_epoch).2)%nat
          ∧ (select_times env0 args_ref (Some 0) (Some 0) world_epoch).1.2
            = Some (now_timestamp env0 n))
  ∧ fs (main env0 args_ref world_epoch).2 !! "old"
    = Some (mkFile "y" 1793700000 1793700001).
Proof.
  destruct (C9_epoch_replaced_by_now env0 args_ref (Some 0) (Some 0)
              world_epoch) as (H1 & H2 & _).
  split; [apply H1; reflexivity|]. split; [apply H2; reflexivity|].
  reflexivity.
Defined.

(** C8 as stated fails: without a time source and without [-a]/[-m] the
    clock is read once for the access time and once more for the modify
    time, so the two times written differ as soon as the clock has moved
    between the two readings. *)
Lemma C8_counterexample :
  given (reference args_batch) = None
  ∧ given (date args_batch) = None
  ∧ given (t_spec args_batch) = None
  ∧ (main env0 args_batch world0).1 = LaunchGUI ["new"; "old"]
  ∧ ∃ f, fs (main env0 args_batch world0).2 !! "old" = Some f
         ∧ st_atime f = 1793700000
         ∧ st_mtime f = 1793700001
         ∧ st_atime f ≠ st_mtime f.
Proof.
  repeat split; try reflexivity.
  exists (mkFile "y" 1793700000 1793700001).
  repeat split; try reflexivity. discriminate.
Qed.

(** C8, amended: without a time source the clock is read before the loop
    over the paths and never inside it, so every path touched in one
    invocation carries the same pair of times. With exactly one of
    [-a]/[-m] the clock is read once and both times are that reading;
    otherwise the access time is one reading and the modify time is the
    next. *)
Theorem C8_now_read_before_loop E args w :
  given (reference args) = None →
  given (date args) = None →
  given (t_spec args) = None →
  let n := clock w in
  let one_flag := xorb (flag_a args) (flag_m args) in
  let A := now_timestamp E n in
  let M := now_timestamp E (if one_flag then n else S n) in
  let w' := (main E args w).2 in
  (∀ p, p ∈ file args → would_succeed E (no_create args) w p = true →
        stamped w' p A M)
  ∧ (one_flag = true → A = M).
Proof.
  intros Hr Hd Ht n one_flag A M w'.
  assert (Hres : resolve_source E args w = (inr (None, None), w)).
  { unfold resolve_source. by rewrite Hr, Hd, Ht. }
  split; [|by subst A M; intros ->].
  intros p Hp Hok.
  pose proof (main_stamps E args w None None w p Hres Hp Hok) as Hst.
  revert Hst.
  subst A M one_flag n w'. unfold select_times.
  destruct (flag_a args), (flag_m args); simpl; done.
Qed.

Lemma C8_now_read_before_loop_witness :
  stamped (main env0 args_batch world0).2 "old" 1793700000 1793700001
  ∧ stamped (main env0 args_only_a world0).2 "old" 1793700000 1793700000.
Proof.
  split.
  - apply (proj1 (C8_now_read_before_loop env0 args_batch world0
                    eq_refl eq_refl eq_refl));
      [apply list_elem_of_In; simpl; auto | reflexivity].
  - apply (proj1 (C8_now_read_before_loop env0 args_only_a world0
                    eq_refl eq_refl eq_refl));
      [apply list_elem_of_In; simpl; auto | reflexivity].
Defined.

(** ** Access time only *)

(** With only [-a] (or only [-m]) and a resolved time [T] different from
    0, [update_timestamps] receives one time and writes it to both slots
    of every path it touches. *)
Lemma one_flag_sets_both E args w T1 T2 w1 p :
  resolve_source E args w = (inr (Some T1, Some T2), w1) →
  T1 ≠ 0 → T2 ≠ 0 →
  xorb (flag_a args) (flag_m args) = true →
  p ∈ file args →
  would_succeed E (no_create args) w p = true →
  let T := if flag_a args then T1 else T2 in
  stamped (main E args w).2 p T T.
Proof.
  intros Hr H1 H2 Hx Hp Hok T.
  pose proof (main_stamps E args w _ _ w1 p Hr Hp Hok) as Hst.
  revert Hst. subst T. unfold select_times, or_now, truthy_ts.
  destruct (Z.eqb_spec T1 0), (Z.eqb_spec T2 0); try done.
  destruct (flag_a args), (flag_m args); simpl in *; done.
Qed.

(** C1 fails on the code: [-a -d 2020-01-01] on a file whose modify time
    was 4 leaves it with the modify time of the date given, not with 4. *)
Lemma C1_only_a_overwrites_mtime :
  fs world0 !! "old" = Some (mkFile "y" 3 4)
  ∧ timestamp env_date (mkDateTime 2020 1 1 0 0 0 0 None) = Ok 1577836800
  ∧ main env_date args_a_date world0
    = (LaunchGUI ["old"],
       mkWorld (<["old" := mkFile "y" 1577836800 1577836800]> (fs world0))
               0 [] []).
Proof. repeat split; reflexivity. Qed.

(** ** Reference file *)



(** [main], when it reaches its loop, runs it with [loop_times]. *)
Lemma main_runs_loop_times E args w af mf :
  loop_times E args w = Some (af, mf) →
  ∃ w2,
    fs w2 = fs w
    ∧ main E args w
      = (let r := touch_all E (file args) mf af (no_create args) w2 in
         let ending :=
           match r.1 with
           | Raise e => (Uncaught e, r.2)
           | Ok [] =>
               (Exited 1,
                print_out "touchp: No files were created or updated. Exiting."
                  r.2)
           | Ok successful_files => (LaunchGUI successful_files, r.2)
           end in
         (ending.1, at_exit ending.1 ending.2)).
Proof.
  unfold loop_times, main, touch_phase.
  destruct (resolve_source E args w) as [[o|[ac mc]] w1] eqn:Hr; [done|].
  destruct (select_times_spec E args ac mc w1)
    as (af' & mf' & w2 & Hs & _ & Hfs & _).
  rewrite Hs. simpl. intros [= <- <-]. exists w2. split.
  - rewrite Hfs. by apply (resolve_source_fs E args w _ _ Hr).
  - destruct (touch_all E (file args) mf' af' (no_create args) w2)
      as [[[|q l]|e] w3]; reflexivity.
Qed.



(** ** Failure to resolve the time source *)

(** Whenever the resolver ends the program, the exit status is 1, one
    line has been written to the error stream and no file has changed. *)
Lemma resolve_failure_is_fatal E args w o w1 :
  resolve_source E args w = (inl o, w1) →
  main E args w = (o, at_exit o w1)
  ∧ exit_code E o = 1
  ∧ fs (at_exit o w1) = fs w
  ∧ ∃ line, stderr (at_exit o w1) = stderr w ++ [line].
Proof.
  intros Hr. unfold main. rewrite Hr. split; [done|]. revert Hr.
  unfold resolve_source.
  repeat case_match; intros [= <- <-]; simpl; eauto.
Qed.

Lemma missing_reference_fails E args w ref :
  given (reference args) = Some ref →
  fs w !! ref = None →
  ∃ w1, resolve_source E args w = (inl (Exited 1), w1).
Proof.
  intros Hg Hf. unfold resolve_source, os_path_exists. rewrite Hg, Hf.
  rewrite bool_decide_eq_false_2 by (by intros [? ?]). simpl. eauto.
Qed.

Lemma bad_date_fails E args w d e :
  given (reference args) = None →
  given (date args) = Some d →
  (dt_obj ← parse_date E d; timestamp E dt_obj) = Raise e →
  ∃ o w1, resolve_source E args w = (inl o, w1).
Proof.
  intros Hr Hd He. unfold resolve_source. rewrite Hr, Hd, He.
  destruct e; eauto.
Qed.

Lemma bad_t_spec_fails E args w t e :
  given (reference args) = None →
  given (date args) = None →
  given (t_spec args) = Some t →
  parse_t (now_datetime E (clock w)) (chars t) = Raise e →
  ∃ o w1, resolve_source E args w = (inl o, w1).
Proof.
  intros Hr Hd Ht He. unfold resolve_source. rewrite Hr, Hd, Ht, He. simpl.
  destruct e; eauto.
Qed.

(** A digit string of any other length than 8, 10 or 12 is refused. *)
Lemma parse_t_bad_length now t :
  contains 46 t = false →
  length t ≠ 8%nat → length t ≠ 10%nat → length t ≠ 12%nat →
  parse_t now t = Raise (ValueError "Invalid format length").
Proof.
  intros Hc H8 H10 H12. unfold parse_t. rewrite Hc. simpl.
  destruct (Nat.eqb_spec (length t) 8); [done|].
  destruct (Nat.eqb_spec (length t) 10); [done|].
  destruct (Nat.eqb_spec (length t) 12); [done|].
  reflexivity.
Qed.

(** C5 fails on the code for an empty argument: the empty [-t] spec has
    no digits, the empty reference path names no file and the empty date
    does not parse, yet each of the three invocations creates and touches
    the target with the current time, prints nothing on the error stream
    and ends with the dialog. *)
Lemma C5_empty_source_is_ignored :
  parse_t (now_datetime env_date 0) (chars "")
    = Raise (ValueError "Invalid format length")
  ∧ fs world0 !! "" = None
  ∧ parse_date env_date "" = Raise (ValueError "Unknown string format")
  ∧ fs world0 !! "new" = None
  ∧ ∀ args, args ∈ [args_empty_t; args_empty_r; args_empty_d] →
      main env_date args world0
      = (LaunchGUI ["new"],
         mkWorld (<["new" := mkFile "" 1793700000 1793700001]> (fs world0))
                 3 ["touchp: created 'new'"] [])
      ∧ exit_code env_date (main env_date args world0).1 = 0.
Proof.
  repeat split; try reflexivity;
    repeat (apply elem_of_cons in H as [->|H]; [reflexivity|]);
    by apply elem_of_nil in H.
Qed.

(** ** The compact numeric spec *)

Lemma digit_range c :
  is_digit c = true → (48 ≤ nat_of_ascii c ≤ 57)%nat.
Proof.
  unfold is_digit. intros H. apply andb_true_iff in H as [H1 H2].
  apply Nat.leb_le in H1, H2. lia.
Qed.

Lemma digit_not_char k c :
  is_digit c = true → (k < 48 ∨ 57 < k)%nat → is_char k c = false.
Proof.
  intros H Hk. apply digit_range in H. unfold is_char.
  apply Nat.eqb_neq. lia.
Qed.

Lemma digit_not_space c : is_digit c = true → is_space c = false.
Proof.
  intros H. apply digit_range in H. unfold is_space. cbv zeta.
  repeat (apply orb_false_iff; split); try (apply Nat.eqb_neq; lia).
  apply andb_false_iff. right. apply Nat.leb_gt. lia.
Qed.

Lemma lstrip_digits l : forallb is_digit l = true → lstrip l = l.
Proof.
  destruct l as [|c l]; [done|]. simpl. intros H.
  apply andb_true_iff in H as [H _]. by rewrite (digit_not_space c H).
Qed.

Lemma forallb_rev {A} (f : A → bool) l :
  forallb f l = true → forallb f (rev l) = true.
Proof.
  rewrite !forallb_forall. intros H x Hx. apply H. by apply in_rev.
Qed.

Lemma strip_digits l : forallb is_digit l = true → strip l = l.
Proof.
  intros H. unfold strip. rewrite (lstrip_digits l H).
  rewrite (lstrip_digits (rev l)) by (by apply forallb_rev).
  apply rev_involutive.
Qed.

Lemma scan_digits_all l acc count :
  forallb is_digit l = true →
  scan_digits acc count false l
  = Some (fold_left (λ a c, 10 * a + digit_val c) l acc,
          (count + length l)%nat, []).
Proof.
  revert acc count. induction l as [|c l IH]; intros acc count H; simpl.
  - by rewrite Nat.add_0_r.
  - simpl in H. apply andb_true_iff in H as [Hc Hl]. rewrite Hc.
    rewrite IH by done. do 2 f_equal. f_equal. lia.
Qed.

Lemma py_int_digits l :
  forallb is_digit l = true → l ≠ [] → (length l ≤ max_str_digits)%nat →
  py_int l = Ok (dec l).
Proof.
  intros H Hne Hlen. unfold py_int. rewrite (strip_digits l H).
  destruct l as [|c l]; [done|].
  pose proof H as Hc. simpl in Hc. apply andb_true_iff in Hc as [Hc _].
  rewrite (digit_not_char 43 c Hc), (digit_not_char 45 c Hc),
    (digit_not_char 95 c Hc) by lia.
  rewrite (scan_digits_all (c :: l) 0 0 H).
  assert ((max_str_digits <? 0 + length (c :: l))%nat = false) as ->
    by (apply Nat.ltb_ge; simpl in *; lia).
  reflexivity.
Qed.

Lemma contains_digits l : forallb is_digit l = true → contains 46 l = false.
Proof.
  induction l as [|c l IH]; [done|]. simpl. intros H.
  apply andb_true_iff in H as [Hc Hl].
  rewrite (digit_not_char 46 c Hc) by lia. by apply IH.
Qed.

Lemma split_on_digits l : forallb is_digit l = true → split_on 46 l = [l].
Proof.
  induction l as [|c l IH]; [done|]. simpl. intros H.
  apply andb_true_iff in H as [Hc Hl].
  rewrite (digit_not_char 46 c Hc) by lia. by rewrite IH.
Qed.

Lemma split_on_dot l1 l2 :
  forallb is_digit l1 = true → forallb is_digit l2 = true →
  split_on 46 (l1 ++ ascii_of_nat 46 :: l2) = [l1; l2].
Proof.
  intros H1 H2. induction l1 as [|c l IH]; simpl.
  - by rewrite split_on_digits.
  - simpl in H1. apply andb_true_iff in H1 as [Hc Hl].
    rewrite (digit_not_char 46 c Hc) by lia. by rewrite IH.
Qed.

(** The first statement of the parser: the digit string and the seconds. *)
Lemma t_split now body sec :
  forallb is_digit body = true →
  (∀ ss, sec = Some ss → forallb is_digit ss = true) →
  (if contains 46 (body ++ sec_suffix sec) then
     match split_on 46 (body ++ sec_suffix sec) with
     | [t_str; ss] => Ok (t_str, inl ss)
     | [] | [_] =>
         Raise (ValueError "not enough values to unpack (expected 2, got 1)")
     | _ => Raise (ValueError "too many values to unpack (expected 2)")
     end
   else Ok (body ++ sec_suffix sec, inr (second now)))
  = Ok (body, match sec with
              | Some ss => inl ss
              | None => inr (second now)
              end).
Proof.
  intros Hb Hs. destruct sec as [ss|]; simpl.
  - unfold contains. rewrite existsb_app. simpl.
    rewrite orb_true_r. rewrite split_on_dot; auto.
  - rewrite app_nil_r. by rewrite contains_digits.
Qed.

Lemma int_ss_value now sec :
  (∀ ss, sec = Some ss → digits 2 ss) →
  int_ss (match sec with
          | Some ss => inl ss
          | None => inr (second now)
          end) = Ok (seconds_value now sec).
Proof.
  intros Hs. destruct sec as [ss|]; [|done]. simpl.
  destruct (Hs ss eq_refl) as [Hl Hd].
  apply py_int_digits; [done | by destruct ss |].
  rewrite Hl. unfold max_str_digits. lia.
Qed.

Lemma c_int_error_small v : -9999 ≤ v ≤ 9999 → c_int_error v = None.
Proof.
  intros Hv. unfold c_int_error.
  repeat match goal with
  | |- context [?a <? ?b] => destruct (Z.ltb_spec a b); try lia
  end.
  reflexivity.
Qed.

Lemma days_in_month_le y mo : days_in_month y mo ≤ 31.
Proof. unfold days_in_month. repeat case_match; lia. Qed.

Lemma datetime_new_valid y mo d h mi s :
  valid_datetime y mo d h mi s →
  datetime_new y mo d h mi s = Ok (mkDateTime y mo d h mi s 0 None).
Proof.
  intros (Hy & Hmo & Hd & Hh & Hmi & Hs). unfold datetime_new.
  pose proof (days_in_month_le y mo). simpl first_c_int_error.
  rewrite !c_int_error_small by lia.
  repeat match goal with
  | |- context [negb ((?a <=? ?b) && (?c <=? ?e))] =>
      replace ((a <=? b) && (c <=? e)) with true
        by (symmetry; apply andb_true_iff; split; apply Z.leb_le; lia)
  end.
  reflexivity.
Qed.

Lemma datetime_new_out_of_range y mo d h mi s :
  ¬ valid_datetime y mo d h mi s →
  ∃ e, datetime_new y mo d h mi s = Raise e.
Proof.
  intros Hn. unfold datetime_new.
  destruct (first_c_int_error _); [eauto|].
  repeat match goal with
  | |- context [negb ((?a <=? ?b) && (?c <=? ?e))] =>
      destruct (Z.leb_spec a b), (Z.leb_spec c e); simpl; eauto
  end.
  exfalso. apply Hn. unfold valid_datetime. lia.
Qed.

Lemma century_check_all : forallb century_check (seqZ 1000 9000) = true.
Proof. vm_compute. reflexivity. Qed.

Lemma century_prefix y :
  1000 ≤ y ≤ 9999 →
  ∃ c1 c2, firstn 2 (py_str y) = [c1; c2]
           ∧ is_digit c1 = true ∧ is_digit c2 = true
           ∧ 10 * digit_val c1 + digit_val c2 = y / 100.
Proof.
  intros Hy. pose proof century_check_all as H.
  rewrite forallb_forall in H. specialize (H y).
  unfold century_check in H.
  destruct (firstn 2 (py_str y)) as [|c1 [|c2 [|c3 l]]];
    try (discriminate H; apply list_elem_of_In, elem_of_seqZ; lia).
  exists c1, c2. split; [done|].
  assert (Hin : In y (seqZ 1000 9000))
    by (apply list_elem_of_In, elem_of_seqZ; lia).
  apply H in Hin. apply andb_true_iff in Hin as [Hin H3].
  apply andb_true_iff in Hin as [H1 H2]. apply Z.eqb_eq in H3. done.
Qed.

Lemma digits_app n1 n2 l1 l2 :
  digits n1 l1 → digits n2 l2 → digits (n1 + n2) (l1 ++ l2).
Proof.
  intros [H1 H1'] [H2 H2']. split.
  - rewrite length_app. lia.
  - rewrite forallb_app, H1', H2'. done.
Qed.

Lemma rbind_ok {A B} (a : A) (k : A → Result B) : (Ok a ≫= k) = k a.
Proof. reflexivity. Qed.

(** Names the characters of a digit string of known length. *)
Ltac explode H :=
  let Hl := fresh "Hl" in
  let Hd := fresh "Hd" in
  destruct H as [Hl Hd];
  repeat match type of Hl with
  | length ?l = _ =>
      is_var l; destruct l; simpl in Hl; try discriminate Hl
  | S _ = S _ => apply Nat.succ_inj in Hl
  end;
  clear Hl.

Ltac digit_fields :=
  repeat (rewrite py_int_digits
            by (first [assumption | discriminate
                      | simpl; unfold max_str_digits; lia]));
  rewrite ?rbind_ok.

Section ParseT.
Context (now : DateTime) (sec : option (list ascii)).
Context (Hsec : ∀ ss, sec = Some ss → digits 2 ss).

Let Hsec' : ∀ ss, sec = Some ss → forallb is_digit ss = true.
Proof. intros ss Hs. by destruct (Hsec ss Hs). Qed.

Lemma parse_t_8 MM DD hh mm :
  digits 2 MM → digits 2 DD → digits 2 hh → digits 2 mm →
  parse_t now (MM ++ DD ++ hh ++ mm ++ sec_suffix sec)
  = datetime_new (year now) (dec MM) (dec DD) (dec hh) (dec mm)
      (seconds_value now sec).
Proof.
  intros H1 H2 H3 H4.
  pose proof (digits_app _ _ _ _ H1
                (digits_app _ _ _ _ H2 (digits_app _ _ _ _ H3 H4)))
    as [_ Hbody].
  explode H1. explode H2. explode H3. explode H4.
  unfold parse_t.
  change (?a ++ ?b ++ ?c ++ ?d ++ sec_suffix sec)
    with ((a ++ b ++ c ++ d) ++ sec_suffix sec).
  rewrite (t_split now _ sec Hbody Hsec'). rewrite rbind_ok.
  cbn [length Nat.eqb slice skipn firstn Nat.sub app].
  digit_fields. rewrite (int_ss_value now sec Hsec). rewrite rbind_ok.
  reflexivity.
Qed.

Lemma parse_t_12 CCYY MM DD hh mm :
  digits 4 CCYY → digits 2 MM → digits 2 DD → digits 2 hh → digits 2 mm →
  parse_t now (CCYY ++ MM ++ DD ++ hh ++ mm ++ sec_suffix sec)
  = datetime_new (dec CCYY) (dec MM) (dec DD) (dec hh) (dec mm)
      (seconds_value now sec).
Proof.
  intros H0 H1 H2 H3 H4.
  pose proof (digits_app _ _ _ _ H0 (digits_app _ _ _ _ H1
                (digits_app _ _ _ _ H2 (digits_app _ _ _ _ H3 H4))))
    as [_ Hbody].
  explode H0. explode H1. explode H2. explode H3. explode H4.
  unfold parse_t.
  change (?y ++ ?a ++ ?b ++ ?c ++ ?d ++ sec_suffix sec)
    with ((y ++ a ++ b ++ c ++ d) ++ sec_suffix sec).
  rewrite (t_split now _ sec Hbody Hsec'). rewrite rbind_ok.
  cbn [length Nat.eqb slice skipn firstn Nat.sub app].
  digit_fields. rewrite (int_ss_value now sec Hsec). rewrite rbind_ok.
  reflexivity.
Qed.

Lemma parse_t_10 YY MM DD hh mm :
  1000 ≤ year now ≤ 9999 →
  digits 2 YY → digits 2 MM → digits 2 DD → digits 2 hh → digits 2 mm →
  parse_t now (YY ++ MM ++ DD ++ hh ++ mm ++ sec_suffix sec)
  = datetime_new (100 * (year now / 100) + dec YY)
      (dec MM) (dec DD) (dec hh) (dec mm) (seconds_value now sec).
Proof.
  intros Hy H0 H1 H2 H3 H4.
  pose proof (digits_app _ _ _ _ H0 (digits_app _ _ _ _ H1
                (digits_app _ _ _ _ H2 (digits_app _ _ _ _ H3 H4))))
    as [_ Hbody].
  destruct (century_prefix (year now) Hy) as (c1 & c2 & Hc & Hc1 & Hc2 & Hv).
  explode H0. explode H1. explode H2. explode H3. explode H4.
  unfold parse_t.
  change (?y ++ ?a ++ ?b ++ ?c ++ ?d ++ sec_suffix sec)
    with ((y ++ a ++ b ++ c ++ d) ++ sec_suffix sec).
  rewrite (t_split now _ sec Hbody Hsec'). rewrite rbind_ok.
  rewrite Hc.
  cbn [length Nat.eqb slice skipn firstn Nat.sub app].
  rewrite (py_int_digits [c1; c2; _; _])
    by (first [discriminate | simpl; unfold max_str_digits; lia
              | simpl; by rewrite Hc1, Hc2]).
  digit_fields. rewrite (int_ss_value now sec Hsec). rewrite rbind_ok.
  f_equal. unfold dec. simpl. lia.
Qed.

End ParseT.

Lemma resolve_t_spec E args w t dt ts :
  given (reference args) = None →
  given (date args) = None →
  t_spec args = Some (string_of_list_ascii t) →
  t ≠ [] →
  parse_t (now_datetime E (clock w)) t = Ok dt →
  timestamp E dt = Ok ts →
  resolve_source E args w = (inr (Some ts, Some ts), tick w).
Proof.
  intros Hr Hd Ht Hne Hp Hts. unfold resolve_source. rewrite Hr, Hd, Ht.
  assert (Hg : given (Some (string_of_list_ascii t))
               = Some (string_of_list_ascii t)).
  { destruct t as [|c t]; [done|]. reflexivity. }
  rewrite Hg. unfold chars. rewrite list_ascii_of_string_of_list_ascii.
  rewrite Hp. rewrite rbind_ok. by rewrite Hts.
Qed.

Lemma parsed_resolves E w t dt :
  t ≠ [] →
  parse_t (now_datetime E (clock w)) t = Ok dt →
  t_resolves_to E w t dt.
Proof.
  intros Hne Hp. split; [done|]. intros args ts Hr Hd Ht Hts.
  by eapply resolve_t_spec.
Qed.

(** C2: a [-t] spec made of 8, 10 or 12 digits and an optional [.ss],
    whose fields name a calendar date and a time of day, resolves to
    exactly that date and time: month, day, hour and minute are the last
    eight digits; the year is the current year (8 digits), the current
    century followed by the two digits given (10 digits), or the four
    digits given (12 digits); the seconds are the two digits after the
    dot, or the current second without them. *)
Theorem C2_t_spec_literal E w MM DD hh mm sec :
  digits 2 MM → digits 2 DD → digits 2 hh → digits 2 mm →
  (∀ ss, sec = Some ss → digits 2 ss) →
  let now := now_datetime E (clock w) in
  let s := seconds_value now sec in
  let rest := MM ++ DD ++ hh ++ mm ++ sec_suffix sec in
  let literal y := mkDateTime y (dec MM) (dec DD) (dec hh) (dec mm) s 0 None in
  let valid y := valid_datetime y (dec MM) (dec DD) (dec hh) (dec mm) s in
  (valid (year now) → t_resolves_to E w rest (literal (year now)))
  ∧ (∀ YY, digits 2 YY → 1000 ≤ year now ≤ 9999 →
       valid (100 * (year now / 100) + dec YY) →
       t_resolves_to E w (YY ++ rest)
         (literal (100 * (year now / 100) + dec YY)))
  ∧ (∀ CCYY, digits 4 CCYY → valid (dec CCYY) →
       t_resolves_to E w (CCYY ++ rest) (literal (dec CCYY))).
Proof.
  intros H1 H2 H3 H4 Hsec now s rest literal valid.
  assert (Hne : ∀ l, l ++ rest ≠ []).
  { intros l Hl. apply app_eq_nil in Hl as [_ Hl]. subst rest.
    destruct H1 as [H1 _]. by destruct MM. }
  split; [|split].
  - intros Hv. apply parsed_resolves; [apply (Hne [])|].
    subst rest. rewrite (parse_t_8 now sec Hsec) by done.
    by apply datetime_new_valid.
  - intros YY H0 Hy Hv. apply parsed_resolves; [apply Hne|].
    subst rest. rewrite (parse_t_10 now sec Hsec) by done.
    by apply datetime_new_valid.
  - intros CCYY H0 Hv. apply parsed_resolves; [apply Hne|].
    subst rest. rewrite (parse_t_12 now sec Hsec) by done.
    by apply datetime_new_valid.
Qed.

Lemma C2_t_spec_literal_witness :
  t_resolves_to env0 world0 (chars "12251430")
    (mkDateTime 2026 12 25 14 30 0 0 None)
  ∧ t_resolves_to env0 world0 (chars "2312251430")
      (mkDateTime 2023 12 25 14 30 0 0 None)
  ∧ t_resolves_to env0 world0 (chars "202312251430.07")
      (mkDateTime 2023 12 25 14 30 7 0 None).
Proof.
  assert (Hd : ∀ n s, length (chars s) = n →
                      forallb is_digit (chars s) = true → digits n (chars s))
    by (intros n s Hl Hf; by split).
  destruct (C2_t_spec_literal env0 world0
              (chars "12") (chars "25") (chars "14") (chars "30") None)
    as (H8 & H10 & _);
    [apply Hd; reflexivity.. | intros ss [=] |].
  destruct (C2_t_spec_literal env0 world0
              (chars "12") (chars "25") (chars "14") (chars "30")
              (Some (chars "07")))
    as (_ & _ & H12);
    [ apply Hd; reflexivity..
    | intros ss [= <-]; by split |].
  split; [|split].
  - apply H8. unfold valid_datetime. vm_compute. intuition discriminate.
  - apply (H10 (chars "23")); [apply Hd; reflexivity | simpl; lia |].
    unfold valid_datetime. vm_compute. intuition discriminate.
  - apply (H12 (chars "2023")); [apply Hd; reflexivity |].
    unfold valid_datetime. vm_compute. intuition discriminate.
Defined.

(** * Further properties of the code *)

(** ** [update_timestamps], for every choice of its optional times *)

Section AnyTimes.
Context (E : Env).

(** The call with neither time given: [os.utime(filepath, None)]. *)
Lemma update_timestamps_now_cases p nc w :
  update_timestamps E p None None nc w =
    match fs w !! p with
    | Some f =>
        match utime_error E p with
        | None =>
            let t := now_timestamp E (clock w) in
            (Ok true,
             mkWorld (<[p := mkFile (content f) t t]> (fs w)) (S (clock w))
               (stdout w) (stderr w))
        | Some msg => (Ok false, print_err (msg_set_times p msg) w)
        end
    | None =>
        if nc then (Ok false, print_out (msg_no_create p) w)
        else
          match open_error E p with
          | Some msg => (Ok false, print_err (msg_cannot_create p msg) w)
          | None =>
              let t0 := now_timestamp E (clock w) in
              let t1 := now_timestamp E (S (clock w)) in
              match utime_error E p with
              | None =>
                  (Ok true,
                   mkWorld (<[p := mkFile "" t1 t1]> (fs w)) (S (S (clock w)))
                     (stdout w ++ [msg_created p]) (stderr w))
              | Some msg =>
                  (Ok false,
                   mkWorld (<[p := mkFile "" t0 t0]> (fs w)) (S (clock w))
                     (stdout w ++ [msg_created p])
                     (stderr w ++ [msg_set_times p msg]))
              end
          end
    end.
Proof.
  unfold update_timestamps, os_path_exists, set_times, os_utime, open_append.
  cbv zeta.
  destruct (fs w !! p) as [f|] eqn:Hf.
  - rewrite bool_decide_eq_true_2 by eauto. simpl.
    destruct (utime_error E p); reflexivity.
  - rewrite bool_decide_eq_false_2 by (intros [? ?]; done). simpl.
    destruct nc; [reflexivity|].
    destruct (open_error E p) as [msg|]; [reflexivity|]. simpl.
    rewrite lookup_insert_eq.
    destruct (utime_error E p); simpl; [reflexivity|].
    by rewrite insert_insert_eq.
Qed.

Ltac now_cases p w :=
  rewrite (update_timestamps_now_cases p _ w); cbv zeta;
  destruct (fs w !! p) eqn:?;
  [ destruct (utime_error E p) eqn:?
  | match goal with
    | |- context [if ?b then _ else _] =>
        destruct b eqn:?;
        [ | destruct (open_error E p) eqn:?;
            [ | destruct (utime_error E p) eqn:? ] ]
    end ].

(** A statement about any pair of optional times comes down to the two
    shapes of the call. *)
Lemma times_given_or_not (atime mtime : option Timestamp) :
  (is_Some atime ∨ is_Some mtime) ∨ (atime = None ∧ mtime = None).
Proof. destruct atime, mtime; eauto. Qed.

(** X2: a call on [p] creates no other file: a path other than [p] that
    did not exist before the call does not exist after it. *)
Theorem update_timestamps_creates_only_target p mtime atime nc w r w1 q :
  update_timestamps E p mtime atime nc w = (r, w1) →
  q ≠ p →
  fs w !! q = None →
  fs w1 !! q = None.
Proof.
  destruct (times_given_or_not atime mtime) as [Hg|[-> ->]].
  - intros Hu Hq Hn. by rewrite (step_frame E mtime atime nc Hg p w r w1 q Hu Hq).
  - now_cases p w; intros [= <- <-] Hq Hn; simpl;
      rewrite ?lookup_insert_ne by done; done.
Qed.

(** X3: a call never removes a file and never changes what a file
    contains. *)
Theorem update_timestamps_keeps_content p mtime atime nc w r w1 q f :
  update_timestamps E p mtime atime nc w = (r, w1) →
  fs w !! q = Some f →
  ∃ f', fs w1 !! q = Some f' ∧ content f' = content f.
Proof.
  destruct (times_given_or_not atime mtime) as [Hg|[-> ->]];
    [by apply step_keeps_content|].
  now_cases p w; intros [= <- <-] Hf; simpl;
    destruct (decide (q = p)) as [->|Hne];
    rewrite ?lookup_insert_eq, ?lookup_insert_ne by done;
    simplify_eq; eauto.
Qed.

(** X4: with [no_create] set, a call creates nothing: the paths that
    exist afterwards are exactly the paths that existed before. *)
Theorem update_timestamps_no_create p mtime atime w r w1 q :
  update_timestamps E p mtime atime true w = (r, w1) →
  is_Some (fs w1 !! q) ↔ is_Some (fs w !! q).
Proof.
  destruct (times_given_or_not atime mtime) as [Hg|[-> ->]].
  - intros Hu. split.
    + intros Hs. destruct (fs w !! q) as [f|] eqn:Hq; [eauto|].
      rewrite (step_no_create E mtime atime true Hg p w r w1 q Hu eq_refl Hq)
        in Hs. by destruct Hs.
    + intros [f Hf].
      destruct (step_keeps_content E mtime atime true Hg p w r w1 q f Hu Hf)
        as (f' & Hf' & _). eauto.
  - rewrite update_timestamps_now_cases. cbv zeta.
    destruct (fs w !! p) as [f|] eqn:Hp;
      [destruct (utime_error E p)|]; intros [= <- <-]; simpl; try done.
    destruct (decide (q = p)) as [->|Hne];
      rewrite ?lookup_insert_eq, ?lookup_insert_ne by done; [|done].
    rewrite Hp. split; eauto.
Qed.

(** X5: without either time, a successful call stamps the file with one
    reading of the clock, the same for both slots. *)
Theorem update_timestamps_now p nc w w1 :
  update_timestamps E p None None nc w = (Ok true, w1) →
  ∃ n, (clock w ≤ n < clock w1)%nat
       ∧ stamped w1 p (now_timestamp E n) (now_timestamp E n).
Proof.
  now_cases p w; intros [= <-]; simpl.
  - exists (clock w). split; [lia|]. eexists.
    split; [apply lookup_insert_eq | done].
  - exists (S (clock w)). split; [lia|]. eexists.
    split; [apply lookup_insert_eq | done].
Qed.

(** X6: with a time given, touching again what was just touched changes
    nothing at all: same files, same clock, nothing printed. *)
Theorem update_timestamps_idempotent p mtime atime nc w w1 :
  is_Some atime ∨ is_Some mtime →
  update_timestamps E p mtime atime nc w = (Ok true, w1) →
  update_timestamps E p mtime atime nc w1 = (Ok true, w1).
Proof.
  intros Hg Hu.
  destruct (step_stamps E mtime atime nc Hg p w w1 Hu) as (f1 & Hf1 & Ha & Hm).
  assert (Hut : utime_error E p = None).
  { destruct (step_returns E mtime atime nc Hg p w) as [w' Hr].
    rewrite Hu in Hr. injection Hr as Hr _. symmetry in Hr.
    unfold would_succeed in Hr. apply andb_true_iff in Hr as [_ Hr].
    by apply bool_decide_eq_true in Hr. }
  rewrite (update_timestamps_cases E p mtime atime nc w1 Hg). cbv zeta.
  rewrite Hf1, Hut. f_equal. destruct w1 as [files c o e]. unfold set_fs.
  simpl in *. f_equal. apply insert_id. rewrite Hf1. f_equal.
  destruct f1; simpl in *; congruence.
Qed.

(** X7: a call that returns [False] has said why: either the skip notice
    of [-c] on standard output, or one line on the error stream; a call
    that returns [True] writes nothing to the error stream. *)
Theorem update_timestamps_reports p mtime atime nc w b w1 :
  update_timestamps E p mtime atime nc w = (Ok b, w1) →
  if b then stderr w1 = stderr w
  else (stdout w1 = stdout w ++ [msg_no_create p] ∧ stderr w1 = stderr w)
       ∨ (∃ msg, stderr w1 = stderr w ++ [msg_cannot_create p msg]
                 ∧ stdout w1 = stdout w)
       ∨ (∃ msg, stderr w1 = stderr w ++ [msg_set_times p msg]).
Proof.
  destruct (times_given_or_not atime mtime) as [Hg|[-> ->]].
  - rewrite (update_timestamps_cases E p mtime atime nc w Hg). cbv zeta.
    destruct (fs w !! p);
      [ destruct (utime_error E p)
      | destruct nc;
        [ | destruct (open_error E p); [ | destruct (utime_error E p) ] ] ];
      intros [= <- <-]; simpl; eauto.
  - now_cases p w; intros [= <- <-]; simpl; eauto.
Qed.

End AnyTimes.

Lemma update_timestamps_creates_only_target_witness :
  fs (update_timestamps env0 "new" None (Some 9) false world0).2 !! "absent"
  = None.
Proof.
  apply (update_timestamps_creates_only_target env0 "new" None (Some 9) false
           world0 (update_timestamps env0 "new" None (Some 9) false world0).1);
    [apply surjective_pairing | discriminate | reflexivity].
Defined.

Lemma update_timestamps_keeps_content_witness :
  ∃ f', fs (update_timestamps env0 "old" None None false world0).2 !! "old"
        = Some f'
        ∧ content f' = "y".
Proof.
  apply (update_timestamps_keeps_content env0 "old" None None false world0
           (update_timestamps env0 "old" None None false world0).1 _ "old"
           (mkFile "y" 3 4));
    [apply surjective_pairing | reflexivity].
Defined.

Lemma update_timestamps_no_create_witness :
  is_Some (fs (update_timestamps env0 "absent" (Some 5) None true world0).2
             !! "absent")
  ↔ is_Some (fs world0 !! "absent").
Proof.
  apply (update_timestamps_no_create env0 "absent" (Some 5) None world0
           (update_timestamps env0 "absent" (Some 5) None true world0).1).
  apply surjective_pairing.
Defined.

Lemma update_timestamps_now_witness :
  ∃ n, (0 ≤ n < clock (update_timestamps env0 "new" None None false
                          world0).2)%nat
       ∧ stamped (update_timestamps env0 "new" None None false world0).2
           "new" (now_timestamp env0 n) (now_timestamp env0 n).
Proof.
  apply (update_timestamps_now env0 "new" false world0). reflexivity.
Defined.

Lemma update_timestamps_idempotent_witness :
  update_timestamps env0 "new" (Some 8) None false
    (update_timestamps env0 "new" (Some 8) None false world0).2
  = (Ok true, (update_timestamps env0 "new" (Some 8) None false world0).2).
Proof.
  apply (update_timestamps_idempotent env0 "new" (Some 8) None false world0);
    [right; by eexists | reflexivity].
Defined.

Lemma update_timestamps_reports_witness :
  (stdout (update_timestamps env0 "locked" None None false world0).2
   = stdout world0 ++ [msg_no_create "locked"]
   ∧ stderr (update_timestamps env0 "locked" None None false world0).2
     = stderr world0)
  ∨ (∃ msg,
       stderr (update_timestamps env0 "locked" None None false world0).2
       = stderr world0 ++ [msg_cannot_create "locked" msg]
       ∧ stdout (update_timestamps env0 "locked" None None false world0).2
         = stdout world0)
  ∨ (∃ msg,
       stderr (update_timestamps env0 "locked" None None false world0).2
       = stderr world0 ++ [msg_set_times "locked" msg]).
Proof.
  apply (update_timestamps_reports env0 "locked" None None false world0 false).
  reflexivity.
Defined.

(** ** [main] as a whole *)

Lemma resolve_source_ends args E w o w1 :
  resolve_source E args w = (inl o, w1) →
  o = Exited 1 ∨ ∃ e, o = Uncaught e.
Proof.
  unfold resolve_source. repeat case_match; intros [= <- <-]; eauto.
Qed.

(** X8: [main] creates no file but its targets: a path that is not
    among them and did not exist does not exist when [main] ends,
    however it ends. *)
Theorem main_creates_only_targets E args w p :
  p ∉ file args →
  fs w !! p = None →
  fs (main E args w).2 !! p = None.
Proof.
  intros Hp Hn. destruct (resolve_source E args w) as [[o|[ac mc]] w1] eqn:Hr.
  - unfold main. rewrite Hr. simpl. rewrite at_exit_fs.
    by rewrite (resolve_source_fs E args w _ _ Hr).
  - destruct (main_resolved E args w ac mc w1 Hr)
      as (af & mf & w2 & w3 & wf & _ & Hg & Hfs & _ & _ & Ht & Hm & Hfsf & _).
    rewrite Hm. simpl. rewrite Hfsf.
    rewrite (touch_all_frame E mf af (no_create args) Hg _ _ _ _ p Ht Hp).
    by rewrite Hfs.
Qed.

(** X9: [main] never removes a file and never changes what a file
    contains (up to the moment the dialog opens). *)
Theorem main_keeps_content E args w p f :
  fs w !! p = Some f →
  ∃ f', fs (main E args w).2 !! p = Some f' ∧ content f' = content f.
Proof.
  intros Hf. destruct (resolve_source E args w) as [[o|[ac mc]] w1] eqn:Hr.
  - unfold main. rewrite Hr. simpl. rewrite at_exit_fs.
    rewrite (resolve_source_fs E args w _ _ Hr). eauto.
  - destruct (main_resolved E args w ac mc w1 Hr)
      as (af & mf & w2 & w3 & wf & _ & Hg & Hfs & _ & _ & Ht & Hm & Hfsf & _).
    rewrite Hm. simpl. rewrite Hfsf.
    eapply (touch_all_keeps_content E mf af (no_create args) Hg); [done|].
    by rewrite Hfs.
Qed.

(** X10: the dialog is only ever opened on a non-empty list, and every
    path on it is one of the targets and names a file that exists. *)
Theorem main_dialog_files E args w successful :
  (main E args w).1 = LaunchGUI successful →
  successful ≠ []
  ∧ ∀ p, p ∈ successful →
         p ∈ file args ∧ is_Some (fs (main E args w).2 !! p).
Proof.
  destruct (resolve_source E args w) as [[o|[ac mc]] w1] eqn:Hr.
  - unfold main. rewrite Hr. simpl. intros ->.
    destruct (resolve_source_ends _ _ _ _ _ Hr) as [?|[? ?]]; done.
  - pose proof (main_stamps E args w ac mc w1) as Hst.
    destruct (main_resolved E args w ac mc w1 Hr)
      as (af & mf & w2 & w3 & wf & _ & _ & _ & _ & _ & _ & Hm & _).
    rewrite Hm in *. simpl in *. unfold batch_outcome.
    destruct (filter _ (file args)) as [|q l] eqn:Hfl; [done|].
    intros [= <-]. split; [done|]. intros p Hp.
    rewrite <- Hfl in Hp. apply list_elem_of_filter in Hp as [Hok Hin].
    split; [done|].
    destruct (Hst p Hr Hin) as (f & Hf & _); [by apply Is_true_eq_true|].
    eauto.
Qed.

(** X11: when the time source resolves but no target can be touched, the
    program says so on standard output and exits with status 1 without
    opening the dialog. *)
Theorem main_all_failed E args w ac mc w1 :
  resolve_source E args w = (inr (ac, mc), w1) →
  (∀ p, p ∈ file args → would_succeed E (no_create args) w p = false) →
  (main E args w).1 = Exited 1
  ∧ exit_code E (main E args w).1 = 1
  ∧ last (stdout (main E args w).2)
    = Some "touchp: No files were created or updated. Exiting.".
Proof.
  intros Hr Hall.
  assert (Hfl : filter (λ p, would_succeed E (no_create args) w p) (file args)
                = []).
  { induction (file args) as [|q l IH]; [done|].
    rewrite filter_cons. rewrite (Hall q) by apply list_elem_of_here.
    simpl. apply IH. intros p Hp. apply Hall. by apply list_elem_of_further. }
  destruct (select_times_spec E args ac mc w1)
    as (af & mf & w2 & Hs & Hg & Hfs & _).
  destruct (touch_all_returns E mf af (no_create args) Hg (file args) w2)
    as [w3 Ht].
  rewrite (list_filter_iff (λ p, would_succeed E (no_create args) w2 p)
             (λ p, would_succeed E (no_create args) w p)) in Ht.
  2:{ intros q. rewrite (would_succeed_fs E _ w w2); [done|].
      rewrite Hfs. by apply (resolve_source_fs E args w _ _ Hr). }
  rewrite Hfl in Ht.
  unfold main, touch_phase. rewrite Hr, Hs, Ht. simpl.
  repeat split. by rewrite last_snoc.
Qed.

Lemma main_creates_only_targets_witness :
  fs (main env0 args_batch world0).2 !! "absent" = None.
Proof.
  apply (main_creates_only_targets env0 args_batch world0 "absent");
    [|reflexivity].
  intros H. apply list_elem_of_In in H. simpl in H.
  destruct H as [H|[H|[H|[]]]]; discriminate H.
Defined.

Lemma main_keeps_content_witness :
  ∃ f', fs (main env0 args_batch world0).2 !! "old" = Some f'
        ∧ content f' = "y".
Proof.
  apply (main_keeps_content env0 args_batch world0 "old" (mkFile "y" 3 4)).
  reflexivity.
Defined.

Lemma main_dialog_files_witness :
  ["new"; "old"] ≠ []
  ∧ ∀ p, p ∈ ["new"; "old"] →
         p ∈ file args_batch
         ∧ is_Some (fs (main env0 args_batch world0).2 !! p).
Proof.
  apply (main_dialog_files env0 args_batch world0 ["new"; "old"]).
  reflexivity.
Defined.

Lemma main_all_failed_witness :
  (main env0 args_locked_only world0).1 = Exited 1
  ∧ exit_code env0 (main env0 args_locked_only world0).1 = 1
  ∧ last (stdout (main env0 args_locked_only world0).2)
    = Some "touchp: No files were created or updated. Exiting.".
Proof.
  apply (main_all_failed env0 args_locked_only world0 None None world0);
    [reflexivity|].
  intros p Hp. apply list_elem_of_In in Hp. simpl in Hp.
  destruct Hp as [<-|[<-|[]]]; reflexivity.
Defined.

(** X12: which slots [main] hands to [update_timestamps] depends on the
    flags alone: the access time is left out exactly for [-m] without
    [-a], the modify time exactly for [-a] without [-m]. At least one is
    always given, so [main] never asks for the touch-now form of
    [os.utime]. *)
Theorem select_times_slots E args ac mc w :
  let sel := (select_times E args ac mc w).1 in
  (sel.1 = None ↔ flag_m args && negb (flag_a args) = true)
  ∧ (sel.2 = None ↔ flag_a args && negb (flag_m args) = true)
  ∧ (is_Some sel.1 ∨ is_Some sel.2).
Proof.
  unfold select_times.
  destruct (flag_a args), (flag_m args); simpl;
    repeat match goal with
    | |- context [or_now E ?x ?v] => destruct (or_now E x v)
    end; simpl; repeat split; try done; eauto.
Qed.



(** A target that exists and can be touched keeps its content and gets
    the selected times. *)
Lemma main_existing_file E args w ac mc w1 p f :
  resolve_source E args w = (inr (ac, mc), w1) →
  p ∈ file args →
  would_succeed E (no_create args) w p = true →
  fs w !! p = Some f →
  let sel := (select_times E args ac mc w1).1 in
  fs (main E args w).2 !! p
  = Some (mkFile (content f) (written_atime sel.1 sel.2)
            (written_mtime sel.1 sel.2)).
Proof.
  intros Hr Hp Hok Hf sel.
  destruct (main_stamps E args w ac mc w1 p Hr Hp Hok) as (f1 & Hf1 & Ha & Hm).
  fold sel in Ha, Hm.
  destruct (main_resolved E args w ac mc w1 Hr)
    as (af & mf & w2 & w3 & wf & _ & Hg & Hfs & _ & _ & Ht & Hmain & Hfsf & _).
  rewrite Hmain in *. simpl in *. rewrite Hfsf in *.
  destruct (touch_all_keeps_content E mf af (no_create args) Hg _ _ _ _ p f Ht)
    as (f2 & Hf2 & Hc); [by rewrite Hfs|].
  rewrite Hf1. f_equal. rewrite Hf1 in Hf2. injection Hf2 as <-.
  destruct f1; simpl in *; congruence.
Qed.

(** X14: two runs of the program with the same [-d] date, each in its
    own environment (clock, date library, permissions), in both of which
    the date resolves to the same time other than 0, the dialog of the
    first run having written nothing: the second run leaves a target
    exactly as the first run left it. *)
Theorem main_idempotent_for_date E1 E2 args w d dt1 dt2 T p :
  given (reference args) = None →
  given (date args) = Some d →
  parse_date E1 d = Ok dt1 → timestamp E1 dt1 = Ok T →
  parse_date E2 d = Ok dt2 → timestamp E2 dt2 = Ok T →
  T ≠ 0 →
  p ∈ file args →
  would_succeed E1 (no_create args) w p = true →
  utime_error E2 p = None →
  fs (main E2 args (main E1 args w).2).2 !! p = fs (main E1 args w).2 !! p.
Proof.
  intros Hnr Hd Hpd1 Hts1 Hpd2 Hts2 HT Hp Hok Hut2.
  assert (Hres : ∀ E dt v, parse_date E d = Ok dt → timestamp E dt = Ok T →
                   resolve_source E args v = (inr (Some T, Some T), v)).
  { intros E dt v Hpd Hts. unfold resolve_source. rewrite Hnr, Hd, Hpd.
    change (Ok dt ≫= (λ dt_obj, timestamp E dt_obj)) with (timestamp E dt).
    by rewrite Hts. }
  assert (Hsel : ∀ E v,
            let sel := (select_times E args (Some T) (Some T) v).1 in
            written_atime sel.1 sel.2 = T ∧ written_mtime sel.1 sel.2 = T).
  { intros E v. unfold select_times, or_now, truthy_ts.
    destruct (Z.eqb_spec T 0); [done|].
    destruct (flag_a args), (flag_m args); simpl; done. }
  set (w' := (main E1 args w).2).
  destruct (main_stamps E1 args w _ _ w p (Hres E1 dt1 w Hpd1 Hts1) Hp Hok)
    as (f1 & Hf1 & Ha & Hm).
  destruct (Hsel E1 w) as [HA HM]. rewrite HA in Ha. rewrite HM in Hm.
  fold w' in Hf1.
  assert (Hok' : would_succeed E2 (no_create args) w' p = true).
  { unfold would_succeed. rewrite Hf1, Hut2.
    rewrite !bool_decide_eq_true_2 by eauto. done. }
  rewrite (main_existing_file E2 args w' _ _ w' p f1
             (Hres E2 dt2 w' Hpd2 Hts2) Hp Hok' Hf1).
  destruct (Hsel E2 w') as [-> ->]. rewrite Hf1. f_equal.
  destruct f1; simpl in *; congruence.
Qed.

Lemma main_idempotent_for_date_witness :
  fs (main env_date_later args_a_date (main env_date args_a_date world0).2).2
    !! "old"
  = fs (main env_date args_a_date world0).2 !! "old".
Proof.
  apply (main_idempotent_for_date env_date env_date_later args_a_date world0
           "2020-01-01" (mkDateTime 2020 1 1 0 0 0 0 None)
           (mkDateTime 2020 1 1 0 0 0 0 None) 1577836800 "old");
    [ reflexivity | reflexivity | reflexivity | reflexivity | reflexivity
    | reflexivity | discriminate | apply list_elem_of_In; simpl; auto
    | reflexivity | reflexivity ].
Defined.

(** ** How a time source that does not resolve is reported *)

(** A non-empty reference path that names no file ends the program
    at once: status 1, one line naming the path on the error stream, and
    nothing else has changed. *)
Lemma missing_reference_reported E args w ref :
  reference args = Some ref →
  ref ≠ "" →
  fs w !! ref = None →
  main E args w
  = (Exited 1,
     print_err ("touchp: failed to get attributes of '" +:+ ref
                  +:+ "': No such file or directory") w).
Proof.
  intros Href Hne Hf. unfold main, resolve_source, os_path_exists.
  rewrite Href. unfold given, truthy_str.
  destruct (String.eqb_spec ref ""); [done|]. simpl. rewrite Hf.
  rewrite bool_decide_eq_false_2 by (by intros [? ?]). reflexivity.
Qed.

Lemma missing_reference_reported_witness :
  main env0 args_missing_ref world0
  = (Exited 1,
     print_err ("touchp: failed to get attributes of '" +:+ "nowhere"
                  +:+ "': No such file or directory") world0).
Proof.
  apply (missing_reference_reported env0 args_missing_ref world0 "nowhere");
    [reflexivity | discriminate | reflexivity].
Defined.

(** ** The [-t] parser at its edges *)

Lemma raises_only_ok {A} P (a : A) : raises_only P (Ok a).
Proof. intros e [=]. Qed.

Lemma raises_only_raise {A} (P : Exn → Prop) e :
  P e → raises_only P (@Raise A e).
Proof. by intros He e' [= <-]. Qed.

Lemma raises_only_bind {A B} P (r : Result A) (k : A → Result B) :
  raises_only P r → (∀ a, raises_only P (k a)) →
  raises_only P (r ≫= k).
Proof.
  intros Hr Hk e. destruct r as [a|e']; simpl.
  - apply Hk.
  - intros [= <-]. by apply Hr.
Qed.

Lemma raises_only_weaken {A} (P Q : Exn → Prop) (r : Result A) :
  (∀ e, P e → Q e) → raises_only P r → raises_only Q r.
Proof. intros HPQ Hr e He. by apply HPQ, Hr. Qed.

Lemma value_error_is msg : is_value_error (ValueError msg).
Proof. by eexists. Qed.

Lemma py_int_raises l : raises_only is_value_error (py_int l).
Proof.
  unfold py_int. cbv zeta.
  destruct (match strip l with [] => _ | _ => _ end) as [negative unsigned].
  destruct unsigned as [|c r];
    [apply raises_only_raise, value_error_is|].
  destruct (is_char 95 c); [apply raises_only_raise, value_error_is|].
  destruct (scan_digits 0 0 false (c :: r)) as [[[v count] rest]|];
    [|apply raises_only_raise, value_error_is].
  destruct (max_str_digits <? count)%nat;
    [apply raises_only_raise, value_error_is|].
  destruct count, rest;
    first [apply raises_only_ok | apply raises_only_raise, value_error_is].
Qed.

Lemma datetime_new_raises y mo d h mi s :
  raises_only is_value_or_overflow (datetime_new y mo d h mi s).
Proof.
  unfold datetime_new.
  destruct (first_c_int_error _);
    [apply raises_only_raise; right; by eexists|].
  repeat (case_match; [apply raises_only_raise; left; by eexists|]).
  apply raises_only_ok.
Qed.

(** Parsing a [-t] spec fails with [ValueError], or with the
    [OverflowError] of the [datetime] constructor, and with nothing
    else. *)
Lemma parse_t_raises now t :
  raises_only is_value_or_overflow (parse_t now t).
Proof.
  assert (Hint : ∀ l, raises_only is_value_or_overflow (py_int l)).
  { intros l. eapply raises_only_weaken; [|apply py_int_raises].
    intros e He. by left. }
  assert (Hve : ∀ A msg,
            raises_only is_value_or_overflow (@Raise A (ValueError msg))).
  { intros A msg. apply raises_only_raise. left. by eexists. }
  unfold parse_t. apply raises_only_bind.
  - destruct (contains 46 t); [|apply raises_only_ok].
    destruct (split_on 46 t) as [|? [|? [|? ?]]];
      first [apply raises_only_ok | apply Hve].
  - intros [t_str ss]. apply raises_only_bind.
    + repeat case_match; try apply Hve;
        repeat (apply raises_only_bind; [apply Hint | intros ?]);
        apply raises_only_ok.
    + intros [[[[yy mm] dd] hh] mi]. apply raises_only_bind.
      * destruct ss; [apply Hint | apply raises_only_ok].
      * intros ?. apply datetime_new_raises.
Qed.

(** X15: a [-t] spec the parser rejects ends the program with status 1
    and every file as it was. The parser fails with [ValueError] or
    [OverflowError] only: for [ValueError] the error stream gets the
    program's own line, which quotes the spec and gives the reason;
    [OverflowError] (a field that does not fit a C [int]) is not caught
    and is left to the interpreter. *)
Theorem bad_t_spec_reported E args w t e :
  given (reference args) = None →
  given (date args) = None →
  given (t_spec args) = Some t →
  parse_t (now_datetime E (clock w)) (chars t) = Raise e →
  exit_code E (main E args w).1 = 1
  ∧ fs (main E args w).2 = fs w
  ∧ stdout (main E args w).2 = stdout w
  ∧ ((∃ msg, e = ValueError msg
             ∧ main E args w
               = (Exited 1,
                  print_err ("touchp: invalid date format '" +:+ t +:+ "' ("
                               +:+ msg +:+ ")") (tick w)))
     ∨ (∃ msg, e = OverflowError msg ∧ (main E args w).1 = Uncaught e)).
Proof.
  intros Hr Hd Ht He.
  unfold main, resolve_source. rewrite Hr, Hd, Ht, He.
  destruct (parse_t_raises _ _ e He) as [[msg ->]|[msg ->]]; simpl;
    repeat split; eauto.
Qed.

Lemma bad_t_spec_reported_witness :
  main env0 args_bad_t world0
  = (Exited 1,
     print_err ("touchp: invalid date format '" +:+ "02301430" +:+ "' ("
                  +:+ "day is out of range for month" +:+ ")") (tick world0))
  ∧ (main env0 args_huge_seconds world0).1
    = Uncaught (OverflowError "signed integer is greater than maximum").
Proof.
  split.
  - destruct (bad_t_spec_reported env0 args_bad_t world0 "02301430"
                (ValueError "day is out of range for month")
                eq_refl eq_refl eq_refl eq_refl)
      as (_ & _ & _ & [(msg & Hm & Hmain)|(msg & Hm & _)]);
      [|discriminate Hm].
    injection Hm as <-. exact Hmain.
  - destruct (bad_t_spec_reported env0 args_huge_seconds world0
                "12251430.4294967296"
                (OverflowError "signed integer is greater than maximum")
                eq_refl eq_refl eq_refl eq_refl)
      as (_ & _ & _ & [(msg & Hm & _)|(msg & Hm & Hmain)]);
      [discriminate Hm|].
    exact Hmain.
Defined.

(** A [-d] date that cannot be parsed or converted ends the program
    with status 1 and leaves every file alone; for [ValueError] and
    [OverflowError] the error stream gets the program's own line quoting
    the date, any other exception is left to the interpreter. *)
Lemma bad_date_reported E args w d e :
  given (reference args) = None →
  given (date args) = Some d →
  (dt_obj ← parse_date E d; timestamp E dt_obj) = Raise e →
  exit_code E (main E args w).1 = 1
  ∧ fs (main E args w).2 = fs w
  ∧ stdout (main E args w).2 = stdout w
  ∧ match e with
    | ValueError _ | OverflowError _ =>
        main E args w
        = (Exited 1,
           print_err ("touchp: invalid date format '" +:+ d +:+ "'") w)
    | _ => (main E args w).1 = Uncaught e
    end.
Proof.
  intros Hr Hd He. unfold main, resolve_source. rewrite Hr, Hd, He.
  destruct e; simpl; done.
Qed.

Lemma bad_date_reported_witness :
  exit_code env_date (main env_date args_bad_date world0).1 = 1
  ∧ fs (main env_date args_bad_date world0).2 = fs world0
  ∧ stdout (main env_date args_bad_date world0).2 = stdout world0
  ∧ main env_date args_bad_date world0
    = (Exited 1,
       print_err ("touchp: invalid date format '" +:+ "tomorrowish" +:+ "'")
         world0).
Proof.
  apply (bad_date_reported env_date args_bad_date world0 "tomorrowish"
           (ValueError "Unknown string format")); reflexivity.
Defined.

Lemma split_on_cons_length k c l :
  (length (split_on k l) ≤ length (split_on k (c :: l)))%nat.
Proof.
  simpl. destruct (is_char k c); simpl; [lia|].
  destruct (split_on k l); simpl; lia.
Qed.

Lemma split_on_app_length k a b :
  (length (split_on k b) ≤ length (split_on k (a ++ b)))%nat.
Proof.
  induction a as [|c a IH]; simpl app; [done|].
  etrans; [exact IH | apply split_on_cons_length].
Qed.

Lemma split_on_sep_length k d l :
  is_char k d = true →
  length (split_on k (d :: l)) = S (length (split_on k l)).
Proof. intros Hd. simpl. by rewrite Hd. Qed.

Lemma split_on_nonempty k l : (1 ≤ length (split_on k l))%nat.
Proof.
  destruct l as [|c l]; simpl; [lia|].
  destruct (is_char k c); simpl; [lia|].
  destruct (split_on k l); simpl; lia.
Qed.

(** X16: a spec with more than one dot is refused, whatever stands around
    the dots. *)
Theorem parse_t_two_dots now a b c :
  let dot := ascii_of_nat 46 in
  parse_t now (a ++ dot :: b ++ dot :: c)
  = Raise (ValueError "too many values to unpack (expected 2)").
Proof.
  intros dot. unfold parse_t.
  assert (Hc : contains 46 (a ++ dot :: b ++ dot :: c) = true).
  { unfold contains. rewrite existsb_app. simpl. by rewrite orb_true_r. }
  rewrite Hc.
  assert (Hl : (3 ≤ length (split_on 46 (a ++ dot :: b ++ dot :: c)))%nat).
  { etrans; [|apply split_on_app_length].
    rewrite (split_on_sep_length 46 dot) by done.
    apply le_n_S. etrans; [|apply split_on_app_length].
    rewrite (split_on_sep_length 46 dot) by done.
    apply le_n_S. apply split_on_nonempty. }
  destruct (split_on 46 (a ++ dot :: b ++ dot :: c)) as [|? [|? [|? ?]]];
    simpl in Hl; try lia. reflexivity.
Qed.

Lemma split_on_none k l : contains k l = false → split_on k l = [l].
Proof.
  induction l as [|c l IH]; [done|]. simpl. intros H.
  apply orb_false_iff in H as [Hc Hl]. rewrite Hc. by rewrite IH.
Qed.

Lemma split_on_once k d l1 l2 :
  is_char k d = true → contains k l1 = false → contains k l2 = false →
  split_on k (l1 ++ d :: l2) = [l1; l2].
Proof.
  intros Hd H1 H2. induction l1 as [|c l IH]; simpl.
  - rewrite Hd. by rewrite split_on_none.
  - simpl in H1. apply orb_false_iff in H1 as [Hc Hl].
    rewrite Hc. by rewrite IH.
Qed.

(** X17: when the part before the optional dot is not 8, 10 or 12
    characters long the spec is refused for its length, before any of
    its characters is looked at. *)
Theorem parse_t_length now body sec :
  contains 46 body = false →
  (∀ ss, sec = Some ss → contains 46 ss = false) →
  length body ≠ 8%nat → length body ≠ 10%nat → length body ≠ 12%nat →
  parse_t now (body ++ sec_suffix sec)
  = Raise (ValueError "Invalid format length").
Proof.
  intros Hb Hs H8 H10 H12. unfold parse_t.
  assert (Hsplit :
    (if contains 46 (body ++ sec_suffix sec) then
       match split_on 46 (body ++ sec_suffix sec) with
       | [t_str; ss] => Ok (t_str, inl ss)
       | [] | [_] =>
           Raise (ValueError "not enough values to unpack (expected 2, got 1)")
       | _ => Raise (ValueError "too many values to unpack (expected 2)")
       end
     else Ok (body ++ sec_suffix sec, inr (second now)))
    = Ok (body, match sec with
                | Some ss => inl ss
                | None => inr (second now)
                end)).
  { destruct sec as [ss|]; simpl.
    - unfold contains. rewrite existsb_app. simpl. rewrite orb_true_r.
      rewrite split_on_once; auto.
    - rewrite app_nil_r. by rewrite Hb. }
  rewrite Hsplit, rbind_ok.
  destruct (Nat.eqb_spec (length body) 8); [done|].
  destruct (Nat.eqb_spec (length body) 10); [done|].
  destruct (Nat.eqb_spec (length body) 12); [done|].
  reflexivity.
Qed.

Lemma parse_t_length_witness :
  parse_t now0_sample (chars "1225143x9" ++ sec_suffix (Some (chars "xx")))
  = Raise (ValueError "Invalid format length").
Proof.
  apply (parse_t_length now0_sample (chars "1225143x9") (Some (chars "xx")));
    [ reflexivity | by intros ss [= <-] | discriminate.. ].
Defined.

(** X18: the seconds after the dot count by their value, not by their
    number of digits, as long as there are no more digits than [int]
    converts (4300): two specs that differ only in seconds of equal
    value are read alike. *)
Theorem parse_t_seconds_value now body ss1 ss2 :
  forallb is_digit body = true →
  forallb is_digit ss1 = true → ss1 ≠ [] →
  (length ss1 ≤ max_str_digits)%nat →
  forallb is_digit ss2 = true → ss2 ≠ [] →
  (length ss2 ≤ max_str_digits)%nat →
  dec ss1 = dec ss2 →
  parse_t now (body ++ ascii_of_nat 46 :: ss1)
  = parse_t now (body ++ ascii_of_nat 46 :: ss2).
Proof.
  intros Hb H1 Hn1 Hl1 H2 Hn2 Hl2 Hv. unfold parse_t.
  change (ascii_of_nat 46 :: ss1) with (sec_suffix (Some ss1)).
  change (ascii_of_nat 46 :: ss2) with (sec_suffix (Some ss2)).
  rewrite (t_split now body (Some ss1) Hb) by (by intros ? [= <-]).
  rewrite (t_split now body (Some ss2) Hb) by (by intros ? [= <-]).
  rewrite !rbind_ok. unfold int_ss.
  rewrite (py_int_digits ss1 H1 Hn1 Hl1), (py_int_digits ss2 H2 Hn2 Hl2), Hv.
  reflexivity.
Qed.

Lemma parse_t_seconds_value_witness :
  parse_t now0_sample (chars "12251430.5")
  = parse_t now0_sample (chars "12251430.005")
  ∧ parse_t now0_sample (chars "12251430.5")
    = Ok (mkDateTime 2026 12 25 14 30 5 0 None).
Proof.
  split; [|reflexivity].
  apply (parse_t_seconds_value now0_sample (chars "12251430") (chars "5")
           (chars "005"));
    first [reflexivity | discriminate | unfold max_str_digits; simpl; lia].
Defined.

Lemma py_int_signed d :
  is_digit d = true → py_int ["+"%char; d] = Ok (digit_val d).
Proof.
  intros Hd. unfold py_int, strip. simpl.
  rewrite (digit_not_space d Hd). simpl.
  rewrite (digit_not_char 95 d Hd) by lia. rewrite Hd. simpl.
  f_equal; lia.
Qed.

(** X19: the fields are read with [int], which takes a sign: eight
    characters made of four signed single digits pass for [MMDDhhmm]. *)
Theorem parse_t_accepts_signs now d1 d2 d3 d4 :
  is_digit d1 = true → is_digit d2 = true →
  is_digit d3 = true → is_digit d4 = true →
  let plus := "+"%char in
  parse_t now [plus; d1; plus; d2; plus; d3; plus; d4]
  = datetime_new (year now) (digit_val d1) (digit_val d2) (digit_val d3)
      (digit_val d4) (second now).
Proof.
  intros H1 H2 H3 H4 plus. unfold parse_t.
  assert (Hc : contains 46 [plus; d1; plus; d2; plus; d3; plus; d4] = false).
  { unfold contains. simpl.
    rewrite (digit_not_char 46 d1 H1), (digit_not_char 46 d2 H2),
      (digit_not_char 46 d3 H3), (digit_not_char 46 d4 H4) by lia.
    reflexivity. }
  rewrite Hc, rbind_ok.
  cbn [length Nat.eqb slice skipn firstn Nat.sub app].
  subst plus.
  rewrite !py_int_signed by assumption. rewrite !rbind_ok. reflexivity.
Qed.

Lemma parse_t_accepts_signs_witness :
  parse_t now0_sample (chars "+1+2+3+4")
  = Ok (mkDateTime 2026 1 2 3 4 0 0 None).
Proof.
  exact (parse_t_accepts_signs now0_sample "1"%char "2"%char "3"%char
           "4"%char eq_refl eq_refl eq_refl eq_refl).
Defined.

(** ** [PasteDialog.save_content] *)

Section Save.
Context (E : Env) (write_error : string → option string).
Context (content_to_save : string).

Lemma save_loop_step fpath rest w :
  save_loop E write_error (fpath :: rest) content_to_save w
  = match open_write E write_error fpath content_to_save w with
    | Ok w1 =>
        let r := save_loop E write_error rest content_to_save w1 in
        ((basename fpath :: r.1.1, r.1.2), r.2)
    | Raise e =>
        let r := save_loop E write_error rest content_to_save w in
        ((r.1.1,
          ("Could not save to " +:+ fpath +:+ ": " +:+ exn_text e) :: r.1.2),
         r.2)
    end.
Proof.
  simpl. destruct (open_write _ _ _ _ _);
    by destruct (save_loop _ _ _ _ _) as [[? ?] ?].
Qed.

(** Every path given to the loop ends up in exactly one of the two
    lists. *)
Lemma save_loop_lists filepaths w :
  let r := (save_loop E write_error filepaths content_to_save w).1 in
  r.1 = basename <$> filter (λ p, write_error p = None) filepaths
  ∧ r.2 = omap (λ p, (λ msg, "Could not save to " +:+ p +:+ ": " +:+ msg)
                       <$> write_error p) filepaths
  ∧ (length r.1 + length r.2 = length filepaths)%nat.
Proof.
  revert w. induction filepaths as [|p l IH]; intros w; [done|].
  rewrite save_loop_step. unfold open_write.
  cbn [omap list_omap].
  destruct (write_error p) as [msg|] eqn:Hw; cbv zeta;
    rewrite filter_cons; case_decide; try congruence;
    match goal with |- context [save_loop _ _ _ _ ?v] =>
      destruct (IH v) as (H1 & H2 & H3) end;
    cbn [fst snd fmap list_fmap length]; rewrite H1, H2 in *;
    repeat split; simpl; lia.
Qed.

Lemma open_write_lookup p w w1 q :
  open_write E write_error p content_to_save w = Ok w1 →
  write_error p = None
  ∧ (q ≠ p → fs w1 !! q = fs w !! q)
  ∧ ∃ f, fs w1 !! p = Some f ∧ content f = content_to_save.
Proof.
  unfold open_write. destruct (write_error p); [done|].
  intros [= <-]. simpl. split; [done|]. split.
  - intros Hq. by rewrite lookup_insert_ne.
  - eexists. split; [apply lookup_insert_eq | done].
Qed.



(** X20: the message box tells the whole outcome: its text lists the
    base names of the paths written, in the order given, or says that
    no files were saved; its detailed text has one line, quoting the
    full path and the system's reason, for each path that could not be
    written. *)
Theorem save_content_report filepaths w :
  let box := (save_content E write_error filepaths content_to_save w).1 in
  let saved := basename <$> filter (λ p, write_error p = None) filepaths in
  let errors :=
    omap (λ p, (λ msg, "Could not save to " +:+ p +:+ ": " +:+ msg)
                 <$> write_error p) filepaths in
  text box
  = match saved with
    | [] => "No files were saved."
    | _ => "Content successfully saved to:" +:+ newline
             +:+ String.concat newline saved
    end
  ∧ detailed_text box
    = match errors with
      | [] => ""
      | _ => String.concat newline errors
      end.
Proof.
  pose proof (save_loop_lists filepaths w) as (Hs & He & _).
  unfold save_content.
  destruct (save_loop E write_error filepaths content_to_save w)
    as [[saved errors] w']. simpl in Hs, He. subst saved errors.
  cbv zeta.
  destruct (basename <$> _); done.
Qed.


(** X22: [save_content] changes nothing but the files it writes: a path
    that is not on its list, or that the system refuses to open for
    writing, is afterwards as it was. *)
Theorem save_content_frame filepaths w p :
  p ∉ filepaths ∨ write_error p ≠ None →
  fs (save_content E write_error filepaths content_to_save w).2 !! p
  = fs w !! p.
Proof.
  intros Hp.
  assert (Hloop :
    fs (save_loop E write_error filepaths content_to_save w).2 !! p
    = fs w !! p).
  { revert w. induction filepaths as [|q l IH]; intros w; [done|].
    assert (Hl : p ∉ l ∨ write_error p ≠ None).
    { destruct Hp as [Hp|?]; [|by right].
      left. by apply not_elem_of_cons in Hp as [_ ?]. }
    rewrite save_loop_step.
    destruct (open_write E write_error q content_to_save w) as [w1|e] eqn:Ho;
      cbv zeta; simpl; rewrite (IH Hl); [|done].
    destruct (open_write_lookup q w w1 p Ho) as (Hq & Hne & _).
    apply Hne. intros ->. destruct Hp as [Hp|Hp]; [|done].
    apply Hp, list_elem_of_here. }
  unfold save_content.
  destruct (save_loop E write_error filepaths content_to_save w)
    as [[saved errors] w'].
  by destruct saved.
Qed.

(** X23: the message box is the critical one, with the text that no
    files were saved, exactly when no path of the list could be written;
    in particular for an empty list. *)
Theorem save_content_icon filepaths w :
  let box := (save_content E write_error filepaths content_to_save w).1 in
  (icon box = Critical ↔ ∀ p, p ∈ filepaths → write_error p ≠ None)
  ∧ (icon box = Critical → text box = "No files were saved.")
  ∧ window_title box = "Save Status".
Proof.
  pose proof (save_loop_lists filepaths w) as (Hs & _ & _).
  unfold save_content.
  destruct (save_loop E write_error filepaths content_to_save w)
    as [[saved errors] w']. simpl in Hs.
  destruct saved as [|b saved]; simpl; (split; [|split]); try done.
  - split; [|done]. intros _ p Hp Hw.
    assert (p ∈ filter (λ p, write_error p = None) filepaths) as Hin
      by (by apply list_elem_of_filter).
    destruct (filter _ filepaths); [by apply elem_of_nil in Hin | done].
  - split; [done|]. intros Hall. exfalso.
    destruct (filter (λ p, write_error p = None) filepaths) as [|q l] eqn:Hf;
      [done|].
    assert (q ∈ filter (λ p, write_error p = None) filepaths) as Hin
      by (rewrite Hf; apply list_elem_of_here).
    apply list_elem_of_filter in Hin as [Hq Hin]. by apply (Hall q).
Qed.

End Save.


Lemma save_content_frame_witness :
  fs (save_content env0 refuse_locked ["locked"; "old"] "pasted" world0).2
    !! "locked"
  = fs world0 !! "locked".
Proof.
  apply (save_content_frame env0 refuse_locked "pasted" ["locked"; "old"]
           world0 "locked").
  right. discriminate.
Defined.

(** ** [os.path.basename] as the dialog uses it *)

Lemma chars_app a b : chars (a +:+ b) = chars a ++ chars b.
Proof. induction a as [|c a IH]; simpl; [done|]. by rewrite <- IH. Qed.

Lemma basename_chars_no_slash l : contains slash (basename_chars l) = false.
Proof.
  induction l as [|c r IH]; [done|]. simpl.
  destruct (contains slash r) eqn:Hr; [done|].
  destruct (is_char slash c) eqn:Hc; [done|].
  simpl. by rewrite Hc, Hr.
Qed.

Lemma basename_chars_joined d n :
  contains slash n = false →
  basename_chars (d ++ ascii_of_nat slash :: n) = n.
Proof.
  intros Hn. induction d as [|c d IH]; simpl.
  - by rewrite Hn.
  - assert (contains slash (d ++ ascii_of_nat slash :: n) = true) as ->; [|done].
    unfold contains. rewrite existsb_app. simpl. by rewrite orb_true_r.
Qed.

(** X24: the name shown for a saved file never contains a slash, and for
    a path made of a directory, a slash and a name without slash it is
    that name. *)
Theorem basename_spec p :
  contains slash (chars (basename p)) = false
  ∧ ∀ d n, contains slash (chars n) = false →
           basename (d +:+ "/" +:+ n) = n.
Proof.
  split.
  - unfold basename, chars. rewrite list_ascii_of_string_of_list_ascii.
    apply basename_chars_no_slash.
  - intros d n Hn. unfold basename. rewrite !chars_app.
    change (chars "/" ++ chars n) with (ascii_of_nat slash :: chars n).
    rewrite (basename_chars_joined _ _ Hn).
    apply string_of_list_ascii_of_string.
Qed.

Lemma basename_spec_witness :
  basename ("docs/notes" +:+ "/" +:+ "todo.txt") = "todo.txt".
Proof.
  exact (proj2 (basename_spec "") "docs/notes" "todo.txt" eq_refl).
Defined.
